(** * Drizzle Chronicle: history recording over a relational store

    A shallow embedding of [src/core/chronicle.ts] (class [Chronicle]) and of
    the part of the SQLite connection it drives, followed by the properties
    of registration, mutation interception, version retrieval and rollback.

    Layout:
    - [Js]: the object values the engine passes around (value maps,
      predicates, rows), with key order as [Object.keys] reports it;
    - [Sqlite]: the store, reduced to the five statement shapes the engine
      prepares, with positional parameters;
    - [Chronicle]: the class, one definition per method, in a monad that
      keeps the state reached when an exception is thrown;
    - the theorems. *)

From stdpp Require Import gmap strings list sorting.
From Stdlib Require Import ZArith Lia Sorted Permutation.

Local Open Scope Z_scope.
Local Open Scope string_scope.

(** ** JavaScript objects used as records *)

Module Js.

(** The values bound to statement parameters and read back from rows.
    Non-integral numbers and buffers are left out. *)
Inductive value :=
| Null
| Num (n : Z)
| Str (s : string).

(** [Record<string, unknown>]: keys in insertion order, each key once.
    Column names are not array indices, which [Object.keys] would list
    first. *)
Definition object := list (string * value).

(** [Object.keys(o)] and [Object.values(o)]. *)
Definition keys (o : object) : list string := map fst o.
Definition values (o : object) : list value := map snd o.

(** [o[k]]; [None] is [undefined]. *)
Fixpoint get (k : string) (o : object) : option value :=
  match o with
  | [] => None
  | (k', v) :: o' => if String.eqb k k' then Some v else get k o'
  end.

(** [o[k] = v]: an existing key keeps its position, a new key goes last. *)
Fixpoint set (k : string) (v : value) (o : object) : object :=
  match o with
  | [] => [(k, v)]
  | (k', v') :: o' =>
      if String.eqb k k' then (k, v) :: o' else (k', v') :: set k v o'
  end.

(** [{ ...a, ...b }]. *)
Definition spread (a b : object) : object :=
  fold_left (fun acc kv => set (fst kv) (snd kv) acc) b a.

(** [const { k1, ..., kn, ...rest } = o]: the rest object. *)
Definition omit (ks : list string) (o : object) : object :=
  List.filter (fun kv => negb (existsb (String.eqb (fst kv)) ks)) o.

End Js.

(** ** The store

    What the engine relies on of SQLite behind better-sqlite3. A table is
    its column list, its rows in storage order and its AUTOINCREMENT
    sequence. A statement fails to compile on an unknown table, an unknown
    column or an empty column list; parameters bind by position; [=] in a
    WHERE clause is never true on NULL. The constraints are the four the
    engine's own CREATE TABLE writes (INTEGER PRIMARY KEY AUTOINCREMENT,
    NOT NULL, DEFAULT CURRENT_TIMESTAMP, CHECK (... IN ...)); a live table
    may carry them too. A value is stored, compared and read back as it
    was bound. Left out: the conversions of type affinity on storing and
    comparing, the rounding of an integer above 2^53 when it is read into a
    JavaScript number, the end of the AUTOINCREMENT range, the case
    insensitivity of identifiers, any other constraint, and the ROWID order
    of a scan (rows are read in storage order). [keeps] below names the
    values for which SQLite stores and reads back what was bound; the
    statements about stored values are made for those. *)

Module Sqlite.

Import Js.

Inductive storage_class := INTEGER | REAL | TEXT | BLOB.

(** Column constraints, as far as the engine's own DDL uses them. *)
Inductive constraint :=
| PrimaryKeyAutoincrement
| NotNull
| DefaultCurrentTimestamp
| CheckIn (allowed : list value).

Record column := {
  col_name : string;
  col_type : storage_class;
  col_constraints : list constraint }.

(** A stored row lists its values in column order. *)
Definition row := Js.object.

Record table := {
  t_columns : list column;
  t_rows : list row;
  t_seq : Z (* largest key the table ever held (sqlite_sequence) *) }.

(** The connection: its tables and what CURRENT_TIMESTAMP reads now. *)
Record db := {
  tables : gmap string table;
  current_timestamp : string }.

Inductive error :=
| SyntaxError
| NoSuchTable (name : string)
| NoSuchColumn (name : string)
| DuplicateColumn (name : string)
| BindError
| Misuse
| ConstraintFailed.

(** The statements [Chronicle] prepares. Every [?] is positional. *)
Inductive statement :=
| CreateTableIfNotExists (name : string) (cols : list column)
| InsertInto (name : string) (cols : list string)
| UpdateSet (name : string) (set_cols where_cols : list string)
| DeleteFrom (name : string) (where_cols : list string)
| SelectAllFrom (name : string) (where_cols : list string)
                (order_by : option string).

Definition column_names (t : table) : list string :=
  map col_name (t_columns t).

Definition has_column (t : table) (c : string) : bool :=
  existsb (String.eqb c) (column_names t).

Definition is_primary_key (c : column) : bool :=
  existsb (fun k => match k with PrimaryKeyAutoincrement => true | _ => false end)
          (col_constraints c).

Definition has_default_timestamp (c : column) : bool :=
  existsb (fun k => match k with DefaultCurrentTimestamp => true | _ => false end)
          (col_constraints c).

(** [a = b] in a WHERE clause: never true on NULL. *)
Definition sql_eq (a b : value) : bool :=
  match a, b with
  | Num x, Num y => Z.eqb x y
  | Str s, Str t => String.eqb s t
  | _, _ => false
  end.

(** [k1 = ? AND ... AND kn = ?] with the bound values. *)
Definition matches (w : Js.object) (r : row) : bool :=
  forallb (fun kv => match Js.get (fst kv) r with
                     | Some x => sql_eq x (snd kv)
                     | None => false
                     end) w.

(** Pair the named columns with the parameters, in order. *)
Definition bind_params (cols : list string) (params : list value)
  : error + Js.object :=
  if Nat.eqb (length cols) (length params)
  then inr (combine cols params)
  else inl BindError.

(** The first referenced column the table lacks. *)
Definition missing_column (t : table) (cols : list string) : option string :=
  List.find (fun c => negb (has_column t c)) cols.

(** Compile a column list that the grammar requires to be non-empty. *)
Definition check_columns (t : table) (cols : list string) : error + unit :=
  match cols with
  | [] => inl SyntaxError
  | _ => match missing_column t cols with
         | Some c => inl (NoSuchColumn c)
         | None => inr tt
         end
  end.

(** Largest integer stored under column [c]. *)
Definition max_key (c : string) (rows : list row) : Z :=
  fold_right (fun r acc => match Js.get c r with
                           | Some (Num n) => Z.max n acc
                           | _ => acc
                           end) 0 rows.

Definition next_key (t : table) (c : string) : Z :=
  1 + Z.max (t_seq t) (max_key c (t_rows t)).

(** The value an INSERT stores under column [c]. *)
Definition stored_value (now : string) (t : table) (c : column)
           (supplied : option value) : value :=
  match supplied with
  | Some Null | None =>
      if is_primary_key c then Num (next_key t (col_name c))
      else match supplied with
           | Some v => v
           | None => if has_default_timestamp c then Str now else Null
           end
  | Some v => v
  end.

Definition value_eqb (a b : value) : bool :=
  match a, b with
  | Null, Null => true
  | Num x, Num y => Z.eqb x y
  | Str s, Str t => String.eqb s t
  | _, _ => false
  end.

Definition constraint_ok (v : value) (k : constraint) : bool :=
  match k with
  | PrimaryKeyAutoincrement => match v with Num _ => true | _ => false end
  | NotNull => match v with Null => false | _ => true end
  | DefaultCurrentTimestamp => true
  | CheckIn allowed =>
      match v with Null => true | _ => existsb (value_eqb v) allowed end
  end.

(** The row-level constraints of every column hold of [r]. *)
Definition row_ok (cols : list column) (r : row) : bool :=
  forallb (fun c => match Js.get (col_name c) r with
                    | Some v => forallb (constraint_ok v) (col_constraints c)
                    | None => false
                    end) cols.

(** Two stored keys collide. *)
Definition same_key (a b : option value) : bool :=
  match a, b with
  | Some x, Some y => value_eqb x y
  | _, _ => false
  end.

Fixpoint distinct (l : list (option value)) : bool :=
  match l with
  | [] => true
  | x :: l' => negb (existsb (same_key x) l') && distinct l'
  end.

(** No two rows share a primary key. *)
Definition keys_unique (cols : list column) (rows : list row) : bool :=
  forallb (fun c => negb (is_primary_key c)
                    || distinct (map (Js.get (col_name c)) rows)) cols.

(** SET: the row keeps its shape, the named columns take the new values. *)
Definition assign (a : Js.object) (r : row) : row :=
  map (fun kv => (fst kv, match Js.get (fst kv) a with
                          | Some v => v
                          | None => snd kv
                          end)) r.

(** ORDER BY [c] ASC: NULL first, then numbers, then text. *)
Definition value_leb (a b : option value) : bool :=
  match a, b with
  | None, _ | Some Null, _ => true
  | Some (Num _), (None | Some Null) => false
  | Some (Num x), Some (Num y) => Z.leb x y
  | Some (Num _), Some (Str _) => true
  | Some (Str s), Some (Str t) =>
      match String.compare s t with Gt => false | _ => true end
  | Some (Str _), _ => false
  end.

Fixpoint insert_sorted (c : string) (r : row) (l : list row) : list row :=
  match l with
  | [] => [r]
  | r' :: l' =>
      if value_leb (Js.get c r) (Js.get c r') then r :: l
      else r' :: insert_sorted c r l'
  end.

Definition order_by (c : string) (l : list row) : list row :=
  fold_right (insert_sorted c) [] l.

Definition find_table (name : string) (d : db) : error + table :=
  match tables d !! name with
  | Some t => inr t
  | None => inl (NoSuchTable name)
  end.

Definition put_table (name : string) (t : table) (d : db) : db :=
  {| tables := <[name := t]> (tables d);
     current_timestamp := current_timestamp d |}.

Fixpoint duplicate_name (names : list string) : option string :=
  match names with
  | [] => None
  | n :: rest =>
      if existsb (String.eqb n) rest then Some n else duplicate_name rest
  end.

(** No stored row already holds a primary key of [r]. *)
Definition key_fresh (cols : list column) (rows : list row) (r : row) : bool :=
  forallb (fun c => negb (is_primary_key c)
                    || negb (existsb (fun r' => same_key (Js.get (col_name c) r)
                                                         (Js.get (col_name c) r'))
                                     rows))
          cols.

(** The sequence after [r] went in. *)
Definition advance (cols : list column) (r : row) (seq : Z) : Z :=
  fold_right (fun c acc => if is_primary_key c
                           then match Js.get (col_name c) r with
                                | Some (Num n) => Z.max n acc
                                | _ => acc
                                end
                           else acc) seq cols.

Definition insert_row (now : string) (t : table) (a : Js.object)
  : error + table :=
  let r := map (fun c => (col_name c,
                          stored_value now t c (Js.get (col_name c) a)))
               (t_columns t) in
  if row_ok (t_columns t) r && key_fresh (t_columns t) (t_rows t) r
  then inr {| t_columns := t_columns t;
              t_rows := t_rows t ++ [r];
              t_seq := advance (t_columns t) r (t_seq t) |}
  else inl ConstraintFailed.

Definition update_rows (t : table) (a w : Js.object) : error + table :=
  let rows' := map (fun r => if matches w r then assign a r else r)
                   (t_rows t) in
  if forallb (fun r => negb (matches w r) || row_ok (t_columns t) (assign a r))
             (t_rows t)
     && keys_unique (t_columns t) rows'
  then inr {| t_columns := t_columns t; t_rows := rows'; t_seq := t_seq t |}
  else inl ConstraintFailed.

Definition delete_rows (t : table) (w : Js.object) : table :=
  {| t_columns := t_columns t;
     t_rows := List.filter (fun r => negb (matches w r)) (t_rows t);
     t_seq := t_seq t |}.

Definition and_then {E A B} (x : E + A) (f : A -> E + B) : E + B :=
  match x with
  | inl e => inl e
  | inr a => f a
  end.

#[local] Notation "x <- e ;; k" := (and_then e (fun x => k))
  (at level 100, e at next level, right associativity).

(** [prepare(sql).run(...params)]. *)
Definition run (s : statement) (params : list value) (d : db) : error + db :=
  match s with
  | CreateTableIfNotExists name cols =>
      match params with
      | _ :: _ => inl BindError
      | [] =>
          match tables d !! name with
          | Some _ => inr d
          | None =>
              match cols with
              | [] => inl SyntaxError
              | _ =>
                  match duplicate_name (map col_name cols) with
                  | Some n => inl (DuplicateColumn n)
                  | None =>
                      inr (put_table name
                             {| t_columns := cols; t_rows := []; t_seq := 0 |} d)
                  end
              end
          end
      end
  | InsertInto name cols =>
      t <- find_table name d ;;
      _ <- check_columns t cols ;;
      a <- bind_params cols params ;;
      t' <- insert_row (current_timestamp d) t a ;;
      inr (put_table name t' d)
  | UpdateSet name set_cols where_cols =>
      t <- find_table name d ;;
      _ <- check_columns t set_cols ;;
      _ <- check_columns t where_cols ;;
      a <- bind_params set_cols (firstn (length set_cols) params) ;;
      w <- bind_params where_cols (skipn (length set_cols) params) ;;
      t' <- update_rows t a w ;;
      inr (put_table name t' d)
  | DeleteFrom name where_cols =>
      t <- find_table name d ;;
      _ <- check_columns t where_cols ;;
      w <- bind_params where_cols params ;;
      inr (put_table name (delete_rows t w) d)
  | SelectAllFrom name where_cols order =>
      inl Misuse
  end.

(** [prepare(sql).all(...params)]. *)
Definition all (s : statement) (params : list value) (d : db)
  : error + list row :=
  match s with
  | SelectAllFrom name where_cols order =>
      t <- find_table name d ;;
      _ <- check_columns t where_cols ;;
      _ <- match order with
           | Some c => check_columns t [c]
           | None => inr tt
           end ;;
      w <- bind_params where_cols params ;;
      let found := List.filter (matches w) (t_rows t) in
      inr match order with
          | Some c => order_by c found
          | None => found
          end
  | _ => inl Misuse
  end.

(** [prepare(sql).get(...params)]: the first row, [None] for [undefined]. *)
Definition get (s : statement) (params : list value) (d : db)
  : error + option row :=
  rows <- all s params d ;;
  inr (head rows).

End Sqlite.

(** ** The engine: [class Chronicle] *)

Module Chronicle.

Inductive VersioningStrategy := SimpleVersioning | UniTemporal | BiTemporal.

Inductive VersionOperation := INSERT | UPDATE | DELETE.

(** The text of an operation, as it is bound to [version_operation]. *)
Definition operation_text (o : VersionOperation) : string :=
  match o with
  | INSERT => "INSERT"
  | UPDATE => "UPDATE"
  | DELETE => "DELETE"
  end.

(** [ChronicleConfig] as the caller passes it, every field optional. *)
Record ChronicleOptions := {
  opt_strategy : option VersioningStrategy;
  opt_historyTableSuffix : option string;
  opt_autoCreateHistoryTables : option bool }.

(** [Required<ChronicleConfig>]. *)
Record ChronicleConfig := {
  strategy : VersioningStrategy;
  historyTableSuffix : string;
  autoCreateHistoryTables : bool }.

(** What the engine reads of a column of the schema layer; [None] is a
    property the object does not have. *)
Record descriptor := {
  name : option string;
  dataType : option string;
  columnType : option string }.

(** A member of the table object, by what the shape probe tells apart. *)
Inductive member :=
| Falsy                     (* undefined, null, 0, the empty string, false *)
| NotObject                 (* any other primitive, or a function *)
| Object (d : descriptor).

(** The table object: its own enumerable keys, in order. *)
Definition SQLiteTable := list (string * member).

Record VersionedTable := {
  table : SQLiteTable;
  historyTableName : string;
  vt_config : ChronicleConfig }.

Record RollbackOptions := {
  versionId : Z;
  where_ : Js.object }.

(** The fields of an instance. [db] wraps [sqlite] and is only handed
    back by [getDb], so the connection stands for both. *)
Record state := {
  sqlite : Sqlite.db;
  config : ChronicleConfig;
  versionedTables : gmap string VersionedTable }.

(** What [throw] carries: the engine's four messages, or the store's. *)
Inductive Error :=
| NotRegistered (tableName : string)
    (* Table ${tableName} is not registered for versioning *)
| RecordNotFound
    (* Record not found *)
| VersionNotFound (versionId : Z)
    (* Version ${versionId} not found *)
| InvalidColumnDefinition (col : string)
    (* Invalid column definition for ${col} *)
| SqliteError (e : Sqlite.error).

(** A method runs on the instance and either returns or throws; the
    writes made before a throw stay. *)
Definition M (A : Type) : Type := state -> (Error + A) * state.

Definition ret {A} (a : A) : M A := fun c => (inr a, c).

Definition throw {A} (e : Error) : M A := fun c => (inl e, c).

Definition bind {A B} (m : M A) (k : A -> M B) : M B :=
  fun c => match m c with
           | (inl e, c') => (inl e, c')
           | (inr a, c') => k a c'
           end.

Notation "x <- e ;; k" := (bind e (fun x => k))
  (at level 100, e at next level, right associativity).
Notation "e ;;; k" := (bind e (fun _ => k))
  (at level 100, right associativity).

Definition this {A} (f : state -> A) : M A := fun c => (inr (f c), c).

Definition with_sqlite (d : Sqlite.db) (c : state) : state :=
  {| sqlite := d; config := config c; versionedTables := versionedTables c |}.

Definition lift {A} (r : Sqlite.error + A) : M A :=
  match r with
  | inl e => throw (SqliteError e)
  | inr a => ret a
  end.

(** [this.sqlite.prepare(s).run(...params)] and its two readers. *)
Definition sqlite_run (s : Sqlite.statement) (params : list Js.value)
  : M unit :=
  fun c => match Sqlite.run s params (sqlite c) with
           | inl e => (inl (SqliteError e), c)
           | inr d => (inr tt, with_sqlite d c)
           end.

Definition sqlite_get (s : Sqlite.statement) (params : list Js.value)
  : M (option Sqlite.row) :=
  fun c => lift (Sqlite.get s params (sqlite c)) c.

Definition sqlite_all (s : Sqlite.statement) (params : list Js.value)
  : M (list Sqlite.row) :=
  fun c => lift (Sqlite.all s params (sqlite c)) c.

(** [constructor(db, config = {})]. *)
Definition constructor (db : Sqlite.db) (cfg : ChronicleOptions) : state :=
  {| sqlite := db;
     config := {| strategy := default SimpleVersioning (opt_strategy cfg);
                  historyTableSuffix :=
                    default "_history" (opt_historyTableSuffix cfg);
                  autoCreateHistoryTables :=
                    default true (opt_autoCreateHistoryTables cfg) |};
     versionedTables := ∅ |}.

(** The shape probe of the filter: truthy, an object, with a name. *)
Definition is_column (m : member) : bool :=
  match m with
  | Object d => match name d with Some _ => true | None => false end
  | _ => false
  end.

Definition is_text (s : string) (o : option string) : bool :=
  match o with
  | Some t => String.eqb t s
  | None => false
  end.

(** Map the schema layer's types to storage classes; TEXT by default. *)
Definition sqliteType (d : descriptor) : Sqlite.storage_class :=
  if is_text "integer" (dataType d) || is_text "SQLiteInteger" (columnType d)
  then Sqlite.INTEGER
  else if is_text "real" (dataType d) || is_text "SQLiteReal" (columnType d)
  then Sqlite.REAL
  else if is_text "text" (dataType d) || is_text "SQLiteText" (columnType d)
  then Sqlite.TEXT
  else if is_text "blob" (dataType d) || is_text "SQLiteBlob" (columnType d)
  then Sqlite.BLOB
  else Sqlite.TEXT.

(** One [${columnName} ${sqliteType}] of the column definitions. *)
Definition columnDef (entry : string * member) : Error + Sqlite.column :=
  match snd entry with
  | Object d =>
      match name d with
      | Some columnName =>
          inr {| Sqlite.col_name := columnName;
                 Sqlite.col_type := sqliteType d;
                 Sqlite.col_constraints := [] |}
      | None => inl (InvalidColumnDefinition (fst entry))
      end
  | _ => inl (InvalidColumnDefinition (fst entry))
  end.

(** [columns.map(...)]: the first throw ends the loop. *)
Fixpoint columnDefs (columns : list (string * member))
  : Error + list Sqlite.column :=
  match columns with
  | [] => inr []
  | entry :: rest =>
      match columnDef entry with
      | inl e => inl e
      | inr def =>
          match columnDefs rest with
          | inl e => inl e
          | inr defs => inr (def :: defs)
          end
      end
  end.

(** The three columns the CREATE TABLE text opens with. *)
Definition version_id : Sqlite.column :=
  {| Sqlite.col_name := "version_id";
     Sqlite.col_type := Sqlite.INTEGER;
     Sqlite.col_constraints := [Sqlite.PrimaryKeyAutoincrement] |}.

Definition version_created_at : Sqlite.column :=
  {| Sqlite.col_name := "version_created_at";
     Sqlite.col_type := Sqlite.TEXT;
     Sqlite.col_constraints :=
       [Sqlite.NotNull; Sqlite.DefaultCurrentTimestamp] |}.

Definition version_operation : Sqlite.column :=
  {| Sqlite.col_name := "version_operation";
     Sqlite.col_type := Sqlite.TEXT;
     Sqlite.col_constraints :=
       [Sqlite.NotNull;
        Sqlite.CheckIn [Js.Str "INSERT"; Js.Str "UPDATE"; Js.Str "DELETE"]] |}.

Definition metadata : list Sqlite.column :=
  [version_id; version_created_at; version_operation].

(** [private createHistoryTable(tableName, table)]. With no column the
    text ends [..., )], which the store does not parse. *)
Definition createHistoryTable (tableName : string) (table : SQLiteTable)
  : M unit :=
  suffix <- this (fun c => historyTableSuffix (config c)) ;;
  let historyTableName := tableName ++ suffix in
  let columns := List.filter (fun entry => is_column (snd entry)) table in
  match columnDefs columns with
  | inl e => throw e
  | inr [] => throw (SqliteError Sqlite.SyntaxError)
  | inr defs =>
      sqlite_run
        (Sqlite.CreateTableIfNotExists historyTableName
           (metadata ++ defs)%list) []
  end.

(** [registerTable(table, tableName)]. *)
Definition registerTable (table : SQLiteTable) (tableName : string)
  : M VersionedTable :=
  cfg <- this config ;;
  let historyTableName := tableName ++ historyTableSuffix cfg in
  let versionedTable :=
    {| table := table;
       historyTableName := historyTableName;
       vt_config := cfg |} in
  (fun c => (inr tt,
             {| sqlite := sqlite c;
                config := config c;
                versionedTables :=
                  <[tableName := versionedTable]> (versionedTables c) |})) ;;;
  (if autoCreateHistoryTables cfg
   then createHistoryTable tableName table
   else ret tt) ;;;
  ret versionedTable.

(** [private async recordVersion(tableName, values, operation)]. *)
Definition recordVersion (tableName : string) (values : Js.object)
           (operation : VersionOperation) : M unit :=
  suffix <- this (fun c => historyTableSuffix (config c)) ;;
  let historyTableName := tableName ++ suffix in
  let columns := "version_operation" :: Js.keys values in
  let insertValues :=
    Js.Str (operation_text operation) :: Js.values values in
  sqlite_run (Sqlite.InsertInto historyTableName columns) insertValues.

(** The guard every mutation opens with. *)
Definition registered (tableName : string) : M VersionedTable :=
  versionedTable <- this (fun c => versionedTables c !! tableName) ;;
  match versionedTable with
  | None => throw (NotRegistered tableName)
  | Some vt => ret vt
  end.

(** [async insert(tableName, values)]. *)
Definition insert (tableName : string) (values : Js.object) : M unit :=
  registered tableName ;;;
  let columns := Js.keys values in
  let insertValues :=
    map (fun col => default Js.Null (Js.get col values)) columns in
  sqlite_run (Sqlite.InsertInto tableName columns) insertValues ;;;
  recordVersion tableName values INSERT.

(** [async update(tableName, values, where)]. What [get] hands back is
    [undefined] or a row object, and a row object passes [isRecord], so the
    guard [!current || !this.isRecord(current)] is the [None] case. *)
Definition update (tableName : string) (values where_ : Js.object)
  : M unit :=
  registered tableName ;;;
  let whereClause := Js.keys where_ in
  let whereValues := Js.values where_ in
  current <- sqlite_get (Sqlite.SelectAllFrom tableName whereClause None)
                        whereValues ;;
  match current with
  | None => throw RecordNotFound
  | Some current =>
      let setClause := Js.keys values in
      let updateValues := (Js.values values ++ whereValues)%list in
      sqlite_run (Sqlite.UpdateSet tableName setClause whereClause)
                 updateValues ;;;
      recordVersion tableName (Js.spread current values) UPDATE
  end.

(** [async delete(tableName, where)]. *)
Definition delete (tableName : string) (where_ : Js.object) : M unit :=
  registered tableName ;;;
  let whereClause := Js.keys where_ in
  let whereValues := Js.values where_ in
  current <- sqlite_get (Sqlite.SelectAllFrom tableName whereClause None)
                        whereValues ;;
  match current with
  | None => throw RecordNotFound
  | Some current =>
      sqlite_run (Sqlite.DeleteFrom tableName whereClause) whereValues ;;;
      recordVersion tableName current DELETE
  end.

(** [async getVersions(tableName, where)]. *)
Definition getVersions (tableName : string) (where_ : Js.object)
  : M (list Sqlite.row) :=
  suffix <- this (fun c => historyTableSuffix (config c)) ;;
  let historyTableName := tableName ++ suffix in
  sqlite_all (Sqlite.SelectAllFrom historyTableName (Js.keys where_)
                                   (Some "version_id"))
             (Js.values where_).

(** [async getVersion(tableName, versionId)]; [None] is [null]. *)
Definition getVersion (tableName : string) (versionId : Z)
  : M (option Sqlite.row) :=
  suffix <- this (fun c => historyTableSuffix (config c)) ;;
  let historyTableName := tableName ++ suffix in
  sqlite_get (Sqlite.SelectAllFrom historyTableName ["version_id"] None)
             [Js.Num versionId].

(** The keys [rollback] takes out of a version row. *)
Definition metadata_keys : list string :=
  ["version_id"; "version_created_at"; "version_operation"].

(** [async rollback(tableName, options)]. *)
Definition rollback (tableName : string) (options : RollbackOptions)
  : M unit :=
  registered tableName ;;;
  version <- getVersion tableName (versionId options) ;;
  match version with
  | None => throw (VersionNotFound (versionId options))
  | Some version =>
      let data := Js.omit metadata_keys version in
      update tableName data (where_ options)
  end.

(** [getDb()]. *)
Definition getDb : M Sqlite.db := this sqlite.

End Chronicle.

(** ** Vocabulary of the statements *)

Import Chronicle.

(** The name under which the history relation of [tableName] is kept. *)
Definition history_name (c : state) (tableName : string) : string :=
  tableName ++ historyTableSuffix (config c).

(** Every stored row has exactly the table's columns, in order. *)
Definition shaped (t : Sqlite.table) : Prop :=
  Forall (fun r => Js.keys r = Sqlite.column_names t) (Sqlite.t_rows t).

(** The number a version row carries. *)
Definition version_number (r : Sqlite.row) : Z :=
  match Js.get "version_id" r with
  | Some (Js.Num n) => n
  | _ => 0
  end.

(** A row that carries a version number. *)
Definition numbered (r : Sqlite.row) : Prop :=
  exists n, Js.get "version_id" r = Some (Js.Num n).

(** Storage order is the strict order of the version numbers. *)
Definition ascending (rows : list Sqlite.row) : Prop :=
  Forall numbered rows /\
  StronglySorted (fun r r' => version_number r < version_number r') rows.

(** The history relation [h] has the layout [createHistoryTable] gives it
    for the live columns [names]. *)
Definition history_layout (h : Sqlite.table) (names : list string) : Prop :=
  exists defs,
    Sqlite.t_columns h = (metadata ++ defs)%list /\
    map Sqlite.col_name defs = names /\
    Forall (fun d => Sqlite.col_constraints d = []) defs.

(** [tableName] is registered, its live relation is [l], its history
    relation is [h] and was derived from [l]'s columns. *)
Record versioned (c : state) (tableName : string) (l h : Sqlite.table)
  : Prop := {
  v_registered : is_Some (versionedTables c !! tableName);
  v_live : Sqlite.tables (sqlite c) !! tableName = Some l;
  v_history : Sqlite.tables (sqlite c) !! history_name c tableName = Some h;
  v_layout : history_layout h (Sqlite.column_names l);
  v_names : NoDup (Sqlite.column_names l);
  v_apart : Forall (fun k => ~ In k metadata_keys) (Sqlite.column_names l);
  v_live_shaped : shaped l;
  v_history_shaped : shaped h;
  v_ascending : ascending (Sqlite.t_rows h) }.

(** The row [recordVersion] leaves in the history relation. *)
Definition version_row (id : Z) (now : string) (op : VersionOperation)
           (names : list string) (values : Js.object) : Sqlite.row :=
  ("version_id", Js.Num id)
    :: ("version_created_at", Js.Str now)
    :: ("version_operation", Js.Str (operation_text op))
    :: map (fun k => (k, default Js.Null (Js.get k values))) names.

(** The history relation after one more version of [values]. *)
Definition recorded (h : Sqlite.table) (now : string) (op : VersionOperation)
           (names : list string) (values : Js.object) : Sqlite.table :=
  let id := Sqlite.next_key h "version_id" in
  {| Sqlite.t_columns := Sqlite.t_columns h;
     Sqlite.t_rows := (Sqlite.t_rows h ++ [version_row id now op names values])%list;
     Sqlite.t_seq := id |}.

(** The live relation after UPDATE ... SET [values] WHERE [where_]. *)
Definition updated (l : Sqlite.table) (values where_ : Js.object)
  : Sqlite.table :=
  {| Sqlite.t_columns := Sqlite.t_columns l;
     Sqlite.t_rows := map (fun r => if Sqlite.matches where_ r
                                    then Sqlite.assign values r else r)
                          (Sqlite.t_rows l);
     Sqlite.t_seq := Sqlite.t_seq l |}.

(** The instance once the relations [tableName] and its history hold
    [l'] and [h']. *)
Definition written (c : state) (tableName : string) (l' h' : Sqlite.table)
  : state :=
  with_sqlite
    (Sqlite.put_table (history_name c tableName) h'
       (Sqlite.put_table tableName l' (sqlite c))) c.

(** The column a member of the table object contributes, if any: members
    without a name contribute nothing. *)
Definition derived_column (entry : string * member) : list Sqlite.column :=
  match snd entry with
  | Object d =>
      match name d with
      | Some columnName =>
          [{| Sqlite.col_name := columnName;
              Sqlite.col_type := sqliteType d;
              Sqlite.col_constraints := [] |}]
      | None => []
      end
  | _ => []
  end.

(** The live columns of a table object, in key order. *)
Definition derived (table : SQLiteTable) : list Sqlite.column :=
  flat_map derived_column table.

(** A descriptor object that lacks a name. *)
Definition nameless (entry : string * member) : Prop :=
  exists d, snd entry = Object d /\ name d = None.

(** A history relation as [createHistoryTable] first lays it out. *)
Definition created (table : SQLiteTable) : Sqlite.table :=
  {| Sqlite.t_columns := (metadata ++ derived table)%list;
     Sqlite.t_rows := [];
     Sqlite.t_seq := 0 |}.

(** The order ORDER BY version_id sorts by. *)
Definition by_version_id (r r' : Sqlite.row) : Prop :=
  Sqlite.value_leb (Js.get "version_id" r) (Js.get "version_id" r') = true.

(** An integer that a JavaScript number holds exactly
    (Number.isSafeInteger). *)
Definition safe (n : Z) : bool :=
  Z.ltb (- 2 ^ 53) n && Z.ltb n (2 ^ 53).

(** Binding [v], storing it in a column declared [ty] and reading it back
    gives [v]: a number is bound as a REAL, which a TEXT column turns into
    text and the other columns hand back as the same number; a string stays
    the same text in a TEXT or BLOB column, whereas an INTEGER or REAL
    column may turn it into a number. *)
Definition keeps (ty : Sqlite.storage_class) (v : Js.value) : bool :=
  match v, ty with
  | Js.Null, _ => true
  | Js.Num _, Sqlite.TEXT => false
  | Js.Num n, _ => safe n
  | Js.Str _, (Sqlite.TEXT | Sqlite.BLOB) => true
  | Js.Str _, _ => false
  end.

(** Every column of [cols] keeps the value [o] has for it. *)
Definition fits (cols : list Sqlite.column) (o : Js.object) : bool :=
  forallb (fun x => match Js.get (Sqlite.col_name x) o with
                    | Some v => keeps (Sqlite.col_type x) v
                    | None => true
                    end) cols.

(** The rows of [t] hold only values its columns keep. *)
Definition typed (t : Sqlite.table) : bool :=
  forallb (fits (Sqlite.t_columns t)) (Sqlite.t_rows t).

(** A state that differs from [c] at most in the two relations of
    [tableName]. *)
Definition same_elsewhere (c c' : state) (tableName : string) : Prop :=
  versionedTables c' = versionedTables c
  /\ config c' = config c
  /\ forall other,
       other <> tableName -> other <> history_name c tableName ->
       Sqlite.tables (sqlite c') !! other = Sqlite.tables (sqlite c) !! other.





(** ** A running example *)

Module Example.

Definition column_of (key ty : string) : string * member :=
  (key, Object {| name := Some key; dataType := Some ty; columnType := None |}).

(** [sqliteTable("users", { id: integer("id"), name: text("name") })]. *)
Definition users : SQLiteTable :=
  [column_of "id" "integer"; column_of "name" "text"].

(** The same table object with a member that has no name. *)
Definition users_with_nameless : SQLiteTable :=
  [column_of "id" "integer";
   ("broken", Object {| name := None; dataType := Some "text"; columnType := None |});
   column_of "name" "text"].

Definition defaults : ChronicleConfig :=
  {| strategy := SimpleVersioning;
     historyTableSuffix := "_history";
     autoCreateHistoryTables := true |}.

(** CREATE TABLE users (id INTEGER PRIMARY KEY AUTOINCREMENT, name TEXT). *)
Definition live (rows : list Sqlite.row) (seq : Z) : Sqlite.table :=
  {| Sqlite.t_columns :=
       [{| Sqlite.col_name := "id";
           Sqlite.col_type := Sqlite.INTEGER;
           Sqlite.col_constraints := [Sqlite.PrimaryKeyAutoincrement] |};
        {| Sqlite.col_name := "name";
           Sqlite.col_type := Sqlite.TEXT;
           Sqlite.col_constraints := [] |}];
     Sqlite.t_rows := rows;
     Sqlite.t_seq := seq |}.

Definition history (rows : list Sqlite.row) (seq : Z) : Sqlite.table :=
  {| Sqlite.t_columns := (metadata ++ derived users)%list;
     Sqlite.t_rows := rows;
     Sqlite.t_seq := seq |}.

Definition clock : string := "2024-01-01 00:00:00".

Definition binding : VersionedTable :=
  {| table := users; historyTableName := "users_history"; vt_config := defaults |}.

(** An instance with [users] registered, holding the two relations. *)
Definition instance (l h : Sqlite.table) : state :=
  {| sqlite := {| Sqlite.tables := <["users_history" := h]> {["users" := l]};
                  Sqlite.current_timestamp := clock |};
     config := defaults;
     versionedTables := {["users" := binding]} |}.

(** An instance before registration: only the live relation exists. *)
Definition unregistered (l : Sqlite.table) : state :=
  {| sqlite := {| Sqlite.tables := {["users" := l]};
                  Sqlite.current_timestamp := clock |};
     config := defaults;
     versionedTables := ∅ |}.

(** The same connection seen by a second instance that registered nothing. *)
Definition stranger (l h : Sqlite.table) : state :=
  {| sqlite := sqlite (instance l h);
     config := defaults;
     versionedTables := ∅ |}.

Definition user (id : Z) (n : string) : Js.object :=
  [("id", Js.Num id); ("name", Js.Str n)].

Definition version (v : Z) (op : VersionOperation) (id : Z) (n : string)
  : Sqlite.row :=
  version_row v clock op ["id"; "name"] (user id n).

(** insert V1, update V2, update V3 on key 1. *)
Definition three_versions : list Sqlite.row :=
  [version 1 INSERT 1 "V1"; version 2 UPDATE 1 "V2"; version 3 UPDATE 1 "V3"].

Definition after_three : state :=
  instance (live [user 1 "V3"] 1) (history three_versions 3).

(** The scenario of the unit tests: register, insert V1, update to V2,
    update to V3. *)
Definition scenario : M unit :=
  registerTable users "users" ;;;
  insert "users" (user 1 "V1") ;;;
  update "users" [("name", Js.Str "V2")] [("id", Js.Num 1)] ;;;
  update "users" [("name", Js.Str "V3")] [("id", Js.Num 1)].

End Example.

(** ** Further cases of the running example *)

Module Cases.

Import Example.

(** The options of an instance that creates no history relation. *)
Definition manual : ChronicleOptions :=
  {| opt_strategy := None;
     opt_historyTableSuffix := Some "_archive";
     opt_autoCreateHistoryTables := Some false |}.

(** A table object none of whose members is a named column. *)
Definition no_columns : SQLiteTable :=
  [("id", Falsy); ("name", NotObject)].

(** A table object with a column called like a metadata column. *)
Definition clashing : SQLiteTable :=
  [column_of "id" "integer"; column_of "version_operation" "text"].

(** [users] registered, its live relation there, no history relation. *)
Definition without_history (l : Sqlite.table) : state :=
  {| sqlite := sqlite (unregistered l);
     config := defaults;
     versionedTables := {["users" := binding]} |}.

(** A live relation that gained a column after the history relation was
    created. *)
Definition grown (rows : list Sqlite.row) : Sqlite.table :=
  {| Sqlite.t_columns :=
       (Sqlite.t_columns (live [] 0)
        ++ [{| Sqlite.col_name := "email";
               Sqlite.col_type := Sqlite.TEXT;
               Sqlite.col_constraints := [] |}])%list;
     Sqlite.t_rows := rows;
     Sqlite.t_seq := 0 |}.

(** The version [insert] records for a value map that leaves the key to
    the store. *)
Definition keyless : Sqlite.row :=
  version_row 4 clock INSERT ["id"; "name"] [("name", Js.Str "Ann")].

(** [after_three] once [insert] has run on that value map. *)
Definition after_ann : state :=
  instance (live [user 1 "V3"; user 2 "Ann"] 2)
           (history (three_versions ++ [keyless]) 4).

(** A registered table that holds no row yet. *)
Definition vacant : state := instance (live [] 0) (history [] 0).

(** A history relation whose rows were stored out of order. *)
Definition shuffled : Sqlite.table :=
  history [version 3 UPDATE 1 "V3"; version 1 INSERT 1 "V1";
           version 2 UPDATE 1 "V2"] 3.

End Cases.

(** ** Objects *)

Section Objects.

Implicit Types (o a b : Js.object) (k : string) (v : Js.value).

Lemma combine_keys_values o : combine (Js.keys o) (Js.values o) = o.
Proof.
  induction o as [|[k v] o IH]; simpl; [reflexivity|].
  now rewrite IH.
Qed.

Lemma length_keys_values o : length (Js.keys o) = length (Js.values o).
Proof. unfold Js.keys, Js.values. now rewrite !length_map. Qed.

Lemma get_Some_In k o v : Js.get k o = Some v -> In k (Js.keys o).
Proof.
  induction o as [|[k' v'] o IH]; simpl; [discriminate|].
  destruct (String.eqb_spec k k'); [left; congruence | right; auto].
Qed.

Lemma get_In k o : In k (Js.keys o) -> exists v, Js.get k o = Some v.
Proof.
  induction o as [|[k' v'] o IH]; simpl; [tauto|].
  intros H. destruct (String.eqb_spec k k'); [eauto|].
  apply IH. destruct H; congruence.
Qed.

Lemma get_not_In k o : ~ In k (Js.keys o) -> Js.get k o = None.
Proof.
  intros H. destruct (Js.get k o) eqn:E; [|reflexivity].
  apply get_Some_In in E. contradiction.
Qed.

(** Reading a key out of a row built column by column. *)
Lemma get_tabulate k (f : string -> Js.value) (names : list string) :
  In k names -> Js.get k (map (fun n => (n, f n)) names) = Some (f k).
Proof.
  induction names as [|n names IH]; simpl; [tauto|].
  intros H. destruct (String.eqb_spec k n); [congruence|].
  apply IH. destruct H; congruence.
Qed.

(** An object whose keys are [names], each once, is its own tabulation. *)
Lemma tabulate_self o :
  NoDup (Js.keys o) ->
  map (fun k => (k, default Js.Null (Js.get k o))) (Js.keys o) = o.
Proof.
  induction o as [|[k v] o IH]; simpl; [reflexivity|].
  intros H. apply NoDup_cons in H as [Hk H].
  rewrite String.eqb_refl. simpl. f_equal.
  rewrite <- (IH H) at 2. apply map_ext_in.
  intros k' Hin. destruct (String.eqb_spec k' k); [|reflexivity].
  subst. exfalso. apply Hk. now apply list_elem_of_In.
Qed.

Lemma keys_set k v o k' :
  In k' (Js.keys (Js.set k v o)) <-> k' = k \/ In k' (Js.keys o).
Proof.
  induction o as [|[k0 v0] o IH]; simpl.
  - intuition congruence.
  - destruct (String.eqb_spec k k0); simpl.
    + subst. intuition congruence.
    + rewrite IH. intuition congruence.
Qed.

Lemma get_set k v o k' :
  Js.get k' (Js.set k v o) = if String.eqb k' k then Some v else Js.get k' o.
Proof.
  induction o as [|[k0 v0] o IH]; simpl.
  - reflexivity.
  - destruct (String.eqb_spec k k0); simpl.
    + subst. destruct (String.eqb_spec k' k0); reflexivity.
    + rewrite IH. destruct (String.eqb_spec k' k0); [|reflexivity].
      subst. destruct (String.eqb_spec k0 k); congruence.
Qed.

Lemma keys_spread a b k :
  In k (Js.keys (Js.spread a b)) <-> In k (Js.keys a) \/ In k (Js.keys b).
Proof.
  unfold Js.spread. revert a.
  induction b as [|[k0 v0] b IH]; intros a; simpl.
  - tauto.
  - rewrite IH, keys_set. intuition congruence.
Qed.

(** [{...a, ...b}[k]]: [b] wins wherever it has the key. *)
Lemma get_spread a b k :
  NoDup (Js.keys b) ->
  Js.get k (Js.spread a b) =
    match Js.get k b with
    | Some v => Some v
    | None => Js.get k a
    end.
Proof.
  unfold Js.spread. revert a.
  induction b as [|[k0 v0] b IH]; intros a Hb; simpl; [reflexivity|].
  apply NoDup_cons in Hb as [Hk Hb].
  rewrite (IH _ Hb), get_set.
  destruct (String.eqb_spec k k0); [|reflexivity].
  subst. rewrite get_not_In; [reflexivity|].
  intros Hin. apply Hk. now apply list_elem_of_In.
Qed.

Lemma keys_omit ks o :
  Js.keys (Js.omit ks o)
  = List.filter (fun k => negb (existsb (String.eqb k) ks)) (Js.keys o).
Proof.
  induction o as [|[k v] o IH]; simpl; [reflexivity|].
  destruct (existsb (String.eqb k) ks); simpl; now rewrite IH.
Qed.

End Objects.

(** ** The store *)

Section Store.
Import Sqlite.

Lemma existsb_eqb_In k (l : list string) :
  existsb (String.eqb k) l = true <-> In k l.
Proof.
  rewrite existsb_exists. split.
  - intros (x & Hx & E). apply String.eqb_eq in E. now subst.
  - intros H. exists k. split; [assumption | apply String.eqb_refl].
Qed.

Lemma existsb_eqb_not_In k (l : list string) :
  existsb (String.eqb k) l = false <-> ~ In k l.
Proof.
  rewrite <- existsb_eqb_In. now destruct (existsb _ l).
Qed.

Lemma missing_column_None t cols :
  missing_column t cols = None <-> (forall k, In k cols -> In k (column_names t)).
Proof.
  unfold missing_column. split.
  - intros H k Hk. pose proof (find_none _ _ H k Hk) as E.
    apply negb_false_iff in E. now apply existsb_eqb_In.
  - intros H. induction cols as [|k cols IH]; simpl; [reflexivity|].
    unfold has_column at 1.
    destruct (existsb (String.eqb k) (column_names t)) eqn:E; simpl.
    + apply IH. intros k' Hk'. apply H. now right.
    + apply existsb_eqb_not_In in E. exfalso. apply E, H. now left.
Qed.

Lemma check_columns_ok t cols :
  cols <> [] -> (forall k, In k cols -> In k (column_names t)) ->
  check_columns t cols = inr tt.
Proof.
  intros Hne H. unfold check_columns.
  destruct cols; [congruence|].
  apply missing_column_None in H. now rewrite H.
Qed.

Lemma check_columns_inv t cols :
  check_columns t cols = inr tt ->
  cols <> [] /\ (forall k, In k cols -> In k (column_names t)).
Proof.
  unfold check_columns. destruct cols as [|k cols]; [discriminate|].
  destruct (missing_column t (k :: cols)) eqn:E; [discriminate|].
  intros _. split; [discriminate|]. now apply missing_column_None.
Qed.

Lemma bind_object o : bind_params (Js.keys o) (Js.values o) = inr o.
Proof.
  unfold bind_params. rewrite length_keys_values, Nat.eqb_refl.
  now rewrite combine_keys_values.
Qed.

Lemma max_key_bound c rows r n :
  In r rows -> Js.get c r = Some (Js.Num n) -> n <= max_key c rows.
Proof.
  induction rows as [|r' rows IH]; simpl; [tauto|].
  intros [->|Hin] Hget.
  - rewrite Hget. lia.
  - specialize (IH Hin Hget).
    destruct (Js.get c r') as [[| m |]|]; lia.
Qed.

Lemma next_key_above t c r n :
  In r (t_rows t) -> Js.get c r = Some (Js.Num n) -> n < next_key t c.
Proof.
  intros Hin Hget. pose proof (max_key_bound _ _ _ _ Hin Hget).
  unfold next_key. lia.
Qed.

Lemma next_key_unused t c :
  existsb (fun r' => same_key (Some (Js.Num (next_key t c))) (Js.get c r'))
          (t_rows t) = false.
Proof.
  apply not_true_is_false. intros H.
  apply existsb_exists in H as (r & Hin & E).
  destruct (Js.get c r) as [[| n |]|] eqn:G; simpl in E; try discriminate.
  apply Z.eqb_eq in E. pose proof (next_key_above _ _ _ _ Hin G). lia.
Qed.

Lemma metadata_not_supplied vals text :
  Forall (fun k => ~ In k metadata_keys) (Js.keys vals) ->
  let a := ("version_operation", text) :: vals in
  Js.get "version_id" a = None /\
  Js.get "version_created_at" a = None /\
  Js.get "version_operation" a = Some text.
Proof.
  intros H a. rewrite List.Forall_forall in H.
  unfold a. simpl. repeat split.
  - apply get_not_In. intros Hin. apply (H _ Hin). simpl. tauto.
  - apply get_not_In. intros Hin. apply (H _ Hin). simpl. tauto.
Qed.

Lemma plain_not_key d :
  col_constraints d = [] ->
  is_primary_key d = false /\ has_default_timestamp d = false.
Proof. unfold is_primary_key, has_default_timestamp. now intros ->. Qed.

Lemma stored_plain now h d a text :
  col_constraints d = [] ->
  ~ In (col_name d) metadata_keys ->
  (col_name d,
   stored_value now h d (Js.get (col_name d) (("version_operation", text) :: a)))
  = (col_name d, default Js.Null (Js.get (col_name d) a)).
Proof.
  intros Hd Hn. destruct (plain_not_key d Hd) as [Hk Ht].
  f_equal. unfold stored_value. rewrite Hk, Ht. simpl.
  destruct (String.eqb_spec (col_name d) "version_operation") as [E|_].
  - exfalso. apply Hn. rewrite E. simpl. tauto.
  - now destruct (Js.get (col_name d) a) as [[| |]|].
Qed.

Lemma built_version_row h defs now op vals :
  Forall (fun d => col_constraints d = []) defs ->
  Forall (fun k => ~ In k metadata_keys) (map col_name defs) ->
  Forall (fun k => ~ In k metadata_keys) (Js.keys vals) ->
  map (fun c => (col_name c,
                 stored_value now h c
                   (Js.get (col_name c)
                      (("version_operation", Js.Str (operation_text op)) :: vals))))
      (metadata ++ defs)
  = version_row (next_key h "version_id") now op (map col_name defs) vals.
Proof.
  intros Hplain Hapart Hvals.
  destruct (metadata_not_supplied vals (Js.Str (operation_text op)) Hvals)
    as (Hid & Hat & Hop).
  rewrite map_app. unfold version_row, metadata.
  cbn [map app version_id version_created_at version_operation col_name].
  rewrite Hid, Hat, Hop. unfold stored_value at 1 2 3.
  cbn [is_primary_key has_default_timestamp existsb col_constraints
       version_id version_created_at version_operation orb].
  do 3 f_equal. rewrite map_map. apply map_ext_in. intros d Hd.
  rewrite List.Forall_forall in Hplain, Hapart.
  apply stored_plain; [now apply Hplain|].
  apply Hapart, in_map, Hd.
Qed.

Lemma version_row_ok defs id now op vals :
  Forall (fun d => col_constraints d = []) defs ->
  row_ok (metadata ++ defs) (version_row id now op (map col_name defs) vals)
  = true.
Proof.
  intros Hplain. unfold row_ok. rewrite forallb_app.
  apply andb_true_intro. split.
  - destruct op; reflexivity.
  - apply forallb_forall. intros d Hd.
    rewrite List.Forall_forall in Hplain. rewrite (Hplain d Hd).
    destruct (get_In (col_name d) (version_row id now op (map col_name defs) vals))
      as [v ->]; [|reflexivity].
    unfold version_row, Js.keys. simpl. do 3 right.
    rewrite map_map. simpl. rewrite map_id. apply in_map, Hd.
Qed.

Lemma version_row_fresh h defs now op vals :
  Forall (fun d => col_constraints d = []) defs ->
  key_fresh (metadata ++ defs) (t_rows h)
    (version_row (next_key h "version_id") now op (map col_name defs) vals)
  = true.
Proof.
  intros Hplain. unfold key_fresh. rewrite forallb_app.
  apply andb_true_intro. split.
  - cbn [forallb metadata is_primary_key existsb col_constraints version_id
         version_created_at version_operation negb orb andb col_name].
    change (Js.get "version_id" (version_row _ _ _ _ _))
      with (Some (Js.Num (next_key h "version_id"))).
    now rewrite next_key_unused.
  - apply forallb_forall. intros d Hd.
    rewrite List.Forall_forall in Hplain.
    destruct (plain_not_key d (Hplain d Hd)) as [-> _]. reflexivity.
Qed.

Lemma advance_plain defs r seq :
  Forall (fun d => col_constraints d = []) defs -> advance defs r seq = seq.
Proof.
  induction 1 as [|d defs Hd _ IH]; simpl; [reflexivity|].
  destruct (plain_not_key d Hd) as [-> _]. exact IH.
Qed.

Lemma advance_version h defs now op vals :
  Forall (fun d => col_constraints d = []) defs ->
  advance (metadata ++ defs)
    (version_row (next_key h "version_id") now op (map col_name defs) vals)
    (t_seq h)
  = next_key h "version_id".
Proof.
  intros Hplain. unfold advance. rewrite fold_right_app.
  fold (advance defs (version_row (next_key h "version_id") now op
                        (map col_name defs) vals) (t_seq h)).
  rewrite (advance_plain _ _ _ Hplain).
  cbn [fold_right metadata is_primary_key existsb col_constraints version_id
       version_created_at version_operation orb col_name].
  change (Js.get "version_id" (version_row _ _ _ _ _))
    with (Some (Js.Num (next_key h "version_id"))).
  unfold next_key. lia.
Qed.

Lemma insert_row_version h names now op vals :
  history_layout h names ->
  Forall (fun k => ~ In k metadata_keys) names ->
  (forall k, In k (Js.keys vals) -> In k names) ->
  insert_row now h (("version_operation", Js.Str (operation_text op)) :: vals)
  = inr (recorded h now op names vals).
Proof.
  intros (defs & Hcols & Hnames & Hplain) Hapart Hsub.
  assert (Hvals : Forall (fun k => ~ In k metadata_keys) (Js.keys vals)).
  { rewrite List.Forall_forall in *. intros k Hk. apply Hapart, Hsub, Hk. }
  subst names. unfold insert_row, recorded. rewrite Hcols.
  rewrite (built_version_row h defs now op vals Hplain Hapart Hvals).
  rewrite version_row_ok, version_row_fresh by assumption.
  cbn [andb]. now rewrite advance_version.
Qed.

(** The store-level effect of [recordVersion]. *)
Lemma run_insert_version d hname h names op vals :
  tables d !! hname = Some h ->
  history_layout h names ->
  Forall (fun k => ~ In k metadata_keys) names ->
  (forall k, In k (Js.keys vals) -> In k names) ->
  run (InsertInto hname ("version_operation" :: Js.keys vals))
      (Js.Str (operation_text op) :: Js.values vals) d
  = inr (put_table hname (recorded h (current_timestamp d) op names vals) d).
Proof.
  intros Hh Hlay Hapart Hsub. unfold run, find_table. rewrite Hh.
  cbn [and_then].
  rewrite check_columns_ok; [|discriminate|].
  - cbn [and_then].
    change ("version_operation" :: Js.keys vals)
      with (Js.keys (("version_operation", Js.Str (operation_text op)) :: vals)).
    change (Js.Str (operation_text op) :: Js.values vals)
      with (Js.values (("version_operation", Js.Str (operation_text op)) :: vals)).
    rewrite bind_object. cbn [and_then].
    now rewrite (insert_row_version h names _ op vals Hlay Hapart Hsub).
  - intros k [<-|Hk].
    + destruct Hlay as (defs & Hcols & _). unfold column_names.
      rewrite Hcols, map_app. apply in_or_app. left. simpl. tauto.
    + destruct Hlay as (defs & Hcols & Hnames & _). unfold column_names.
      rewrite Hcols, map_app, Hnames. apply in_or_app. right. now apply Hsub.
Qed.

End Store.

(** ** What each prepared statement does *)

Section Statements.
Import Sqlite.

Lemma get_combine_map k (ks : list string) (f : string -> Js.value) :
  Js.get k (combine ks (map f ks))
  = if existsb (String.eqb k) ks then Some (f k) else None.
Proof.
  induction ks as [|k' ks IH]; simpl; [reflexivity|].
  destruct (String.eqb_spec k k'); simpl; [now subst | exact IH].
Qed.

(** [columns.map(col => values[col])] binds what the object holds. *)
Lemma get_bound_values k o :
  Js.get k (combine (Js.keys o)
              (map (fun col => default Js.Null (Js.get col o)) (Js.keys o)))
  = Js.get k o.
Proof.
  rewrite get_combine_map.
  destruct (existsb (String.eqb k) (Js.keys o)) eqn:E.
  - apply existsb_eqb_In, get_In in E as [v ->]. reflexivity.
  - apply existsb_eqb_not_In, get_not_In in E. now rewrite E.
Qed.

Lemma insert_row_ext now t a b :
  (forall k, Js.get k a = Js.get k b) ->
  insert_row now t a = insert_row now t b.
Proof.
  intros H. unfold insert_row.
  assert (E : map (fun c => (col_name c, stored_value now t c (Js.get (col_name c) a)))
                  (t_columns t)
              = map (fun c => (col_name c, stored_value now t c (Js.get (col_name c) b)))
                  (t_columns t)).
  { apply map_ext. intros c. now rewrite H. }
  now rewrite E.
Qed.

Lemma run_insert d tableName l vals :
  tables d !! tableName = Some l ->
  check_columns l (Js.keys vals) = inr tt ->
  run (InsertInto tableName (Js.keys vals))
      (map (fun col => default Js.Null (Js.get col vals)) (Js.keys vals)) d
  = and_then (insert_row (current_timestamp d) l vals)
             (fun l' => inr (put_table tableName l' d)).
Proof.
  intros Hl Hc. unfold run, find_table. rewrite Hl. cbn [and_then].
  rewrite Hc. cbn [and_then]. unfold bind_params.
  rewrite length_map, Nat.eqb_refl. cbn [and_then].
  rewrite (insert_row_ext (current_timestamp d) l _ vals);
    [reflexivity | intros k; apply get_bound_values].
Qed.

Lemma all_select d tableName l w :
  tables d !! tableName = Some l ->
  check_columns l (Js.keys w) = inr tt ->
  all (SelectAllFrom tableName (Js.keys w) None) (Js.values w) d
  = inr (List.filter (matches w) (t_rows l)).
Proof.
  intros Hl Hc. unfold all, find_table. rewrite Hl. cbn [and_then].
  rewrite Hc. cbn [and_then]. now rewrite bind_object.
Qed.

Lemma get_select d tableName l w :
  tables d !! tableName = Some l ->
  check_columns l (Js.keys w) = inr tt ->
  get (SelectAllFrom tableName (Js.keys w) None) (Js.values w) d
  = inr (List.find (matches w) (t_rows l)).
Proof.
  intros Hl Hc. unfold get. rewrite (all_select _ _ _ _ Hl Hc).
  cbn [and_then]. f_equal.
  induction (t_rows l) as [|r rows IH]; simpl; [reflexivity|].
  now destruct (matches w r).
Qed.

Lemma firstn_keys_values (a : Js.object) (rest : list Js.value) :
  firstn (length (Js.keys a)) (Js.values a ++ rest) = Js.values a /\
  skipn (length (Js.keys a)) (Js.values a ++ rest) = rest.
Proof.
  induction a as [|[k v] a [IH1 IH2]]; simpl; [easy|].
  split; [now f_equal | assumption].
Qed.

Lemma run_update d tableName l vals w :
  tables d !! tableName = Some l ->
  check_columns l (Js.keys vals) = inr tt ->
  check_columns l (Js.keys w) = inr tt ->
  run (UpdateSet tableName (Js.keys vals) (Js.keys w))
      (Js.values vals ++ Js.values w) d
  = and_then (update_rows l vals w)
             (fun l' => inr (put_table tableName l' d)).
Proof.
  intros Hl Hv Hw. unfold run, find_table. rewrite Hl. cbn [and_then].
  rewrite Hv, Hw. cbn [and_then].
  destruct (firstn_keys_values vals (Js.values w)) as [-> ->].
  now rewrite !bind_object.
Qed.

Lemma run_delete d tableName l w :
  tables d !! tableName = Some l ->
  check_columns l (Js.keys w) = inr tt ->
  run (DeleteFrom tableName (Js.keys w)) (Js.values w) d
  = inr (put_table tableName (delete_rows l w) d).
Proof.
  intros Hl Hw. unfold run, find_table. rewrite Hl. cbn [and_then].
  rewrite Hw. cbn [and_then]. now rewrite bind_object.
Qed.

Lemma find_matches_none w rows :
  List.find (matches w) rows = None <->
  (forall r, In r rows -> matches w r = false).
Proof.
  split.
  - intros H r Hr. exact (find_none _ _ H r Hr).
  - intros H. induction rows as [|r rows IH]; simpl; [reflexivity|].
    rewrite (H r (or_introl eq_refl)). apply IH. intros r' Hr'. apply H. now right.
Qed.

End Statements.

(** ** The engine *)

Section Engine.

Implicit Types (c : state) (l h : Sqlite.table).

Lemma bind_returns {A B} (m : M A) (k : A -> M B) c a c' :
  m c = (inr a, c') -> bind m k c = k a c'.
Proof. unfold bind. now intros ->. Qed.

Lemma bind_throws {A B} (m : M A) (k : A -> M B) c e c' :
  m c = (inl e, c') -> bind m k c = (inl e, c').
Proof. unfold bind. now intros ->. Qed.

Lemma registered_found c tableName :
  is_Some (versionedTables c !! tableName) ->
  exists vt, registered tableName c = (inr vt, c).
Proof.
  intros [vt Hvt]. exists vt. unfold registered, bind, this. now rewrite Hvt.
Qed.

Lemma registered_missing c tableName :
  versionedTables c !! tableName = None ->
  registered tableName c = (inl (NotRegistered tableName), c).
Proof. intros H. unfold registered, bind, this. now rewrite H. Qed.

Lemma sqlite_run_returns s params c d :
  Sqlite.run s params (sqlite c) = inr d ->
  sqlite_run s params c = (inr tt, with_sqlite d c).
Proof. unfold sqlite_run. now intros ->. Qed.

Lemma sqlite_get_returns s params c o :
  Sqlite.get s params (sqlite c) = inr o ->
  sqlite_get s params c = (inr o, c).
Proof. unfold sqlite_get. now intros ->. Qed.

(** The history relation and the live relation never share a name. *)
Lemma history_name_apart c tableName l h :
  versioned c tableName l h -> tableName <> history_name c tableName.
Proof.
  intros V E. pose proof (v_live _ _ _ _ V) as Hl.
  pose proof (v_history _ _ _ _ V) as Hh. rewrite <- E, Hl in Hh.
  injection Hh as ->.
  destruct (v_layout _ _ _ _ V) as (defs & Hcols & Hnames & _).
  unfold Sqlite.column_names in Hnames. rewrite Hcols in Hnames.
  apply (f_equal length) in Hnames.
  rewrite !length_map, length_app in Hnames. simpl in Hnames. lia.
Qed.

(** [recordVersion] appends one row and touches nothing else. *)
Lemma recordVersion_appends c tableName h names vals op :
  Sqlite.tables (sqlite c) !! history_name c tableName = Some h ->
  history_layout h names ->
  Forall (fun k => ~ In k metadata_keys) names ->
  (forall k, In k (Js.keys vals) -> In k names) ->
  recordVersion tableName vals op c
  = (inr tt,
     with_sqlite
       (Sqlite.put_table (history_name c tableName)
          (recorded h (Sqlite.current_timestamp (sqlite c)) op names vals)
          (sqlite c)) c).
Proof.
  intros Hh Hlay Hapart Hsub. unfold recordVersion, bind, this.
  apply sqlite_run_returns.
  now apply run_insert_version.
Qed.

Lemma get_built_row (cols : list Sqlite.column) (f : Sqlite.column -> Js.value) col :
  NoDup (map Sqlite.col_name cols) -> In col cols ->
  Js.get (Sqlite.col_name col) (map (fun x => (Sqlite.col_name x, f x)) cols)
  = Some (f col).
Proof.
  induction cols as [|c0 cols IH]; simpl; [tauto|].
  intros Hnd Hin. apply NoDup_cons in Hnd as [Hfresh Hnd].
  destruct Hin as [->|Hin]; [now rewrite String.eqb_refl|].
  destruct (String.eqb_spec (Sqlite.col_name col) (Sqlite.col_name c0)) as [E|_].
  - exfalso. apply Hfresh. rewrite <- E. apply list_elem_of_In, in_map, Hin.
  - now apply IH.
Qed.

Lemma get_version_attribute id now op names vals k :
  In k names -> ~ In k metadata_keys ->
  Js.get k (version_row id now op names vals)
  = Some (default Js.Null (Js.get k vals)).
Proof.
  intros Hin Hk. unfold version_row. cbn [Js.get].
  destruct (String.eqb_spec k "version_id") as [->|_];
    [exfalso; apply Hk; simpl; tauto|].
  destruct (String.eqb_spec k "version_created_at") as [->|_];
    [exfalso; apply Hk; simpl; tauto|].
  destruct (String.eqb_spec k "version_operation") as [->|_];
    [exfalso; apply Hk; simpl; tauto|].
  now apply get_tabulate.
Qed.

Lemma insert_row_inv now l a l' :
  Sqlite.insert_row now l a = inr l' ->
  Sqlite.t_rows l'
  = (Sqlite.t_rows l
     ++ [map (fun x => (Sqlite.col_name x,
                        Sqlite.stored_value now l x (Js.get (Sqlite.col_name x) a)))
             (Sqlite.t_columns l)])%list.
Proof.
  unfold Sqlite.insert_row. destruct (_ && _); [|discriminate].
  now intros [= <-].
Qed.

Lemma stored_supplied now l col v :
  (v = Js.Null -> Sqlite.is_primary_key col = false) ->
  Sqlite.stored_value now l col (Some v) = v.
Proof.
  intros H. unfold Sqlite.stored_value. destruct v; try reflexivity.
  now rewrite H.
Qed.

Lemma get_omit ks (o : Js.object) k :
  Js.get k (Js.omit ks o)
  = if existsb (String.eqb k) ks then None else Js.get k o.
Proof.
  induction o as [|[k0 v0] o IH]; cbn [Js.omit List.filter fst].
  - now destruct (existsb _ ks).
  - fold (Js.omit ks o).
    destruct (existsb (String.eqb k0) ks) eqn:E0; cbn [negb Js.get].
    + rewrite IH. destruct (String.eqb_spec k k0) as [->|_]; [|reflexivity].
      now rewrite E0.
    + rewrite IH. destruct (String.eqb_spec k k0) as [->|_]; [|reflexivity].
      now rewrite E0.
Qed.

(** Taking keys out of an object leaves values the columns keep. *)
Lemma fits_omit cols ks (o : Js.object) :
  fits cols o = true -> fits cols (Js.omit ks o) = true.
Proof.
  unfold fits. rewrite !forallb_forall. intros H x Hx. specialize (H x Hx).
  rewrite get_omit. now destruct (existsb _ ks).
Qed.

(** A version of values the history columns keep, under a number that
    JavaScript holds exactly, is read back as it was recorded. *)
Lemma version_row_fits h names id now op vals :
  history_layout h names ->
  Forall (fun k => ~ In k metadata_keys) names ->
  safe id = true ->
  fits (Sqlite.t_columns h) vals = true ->
  fits (Sqlite.t_columns h) (version_row id now op names vals) = true.
Proof.
  intros (defs & Hcols & Hnames & _) Ha Hid Hfit.
  unfold fits in *. rewrite Hcols in *. rewrite forallb_app in *.
  apply andb_true_iff in Hfit as [_ Hfit]. apply andb_true_iff. split.
  - cbn. now rewrite Hid.
  - rewrite forallb_forall in *. intros x Hx. specialize (Hfit x Hx).
    rewrite List.Forall_forall in Ha.
    assert (Hin : In (Sqlite.col_name x) names)
      by (rewrite <- Hnames; now apply in_map).
    rewrite (get_version_attribute _ _ _ _ _ _ Hin (Ha _ Hin)).
    now destruct (Js.get (Sqlite.col_name x) vals).
Qed.

(** C5, as amended. On a registered table, for a value map over the live
    columns and an INSERT the store accepts, when the live relation as
    written holds only values its columns keep (the supplied ones and the
    keys the store generated), the history columns keep the supplied
    values and the next version number is one JavaScript holds exactly:
    [insert] writes the value map to the live relation (a supplied value is
    stored as it is, NULL under the key column apart, where the store
    generates the key) and records exactly one version, with operation
    INSERT, whose attributes are read from the caller's value map and not
    from the stored row: a column the caller left out is NULL in the
    version whatever the store generated. The version is read back as it
    was recorded. *)
Theorem insert_records_supplied_values c tableName l h values l' :
  versioned c tableName l h ->
  Sqlite.check_columns l (Js.keys values) = inr tt ->
  Sqlite.insert_row (Sqlite.current_timestamp (sqlite c)) l values = inr l' ->
  typed l' = true ->
  fits (Sqlite.t_columns h) values = true ->
  safe (Sqlite.next_key h "version_id") = true ->
  let now := Sqlite.current_timestamp (sqlite c) in
  let names := Sqlite.column_names l in
  let version :=
    version_row (Sqlite.next_key h "version_id") now INSERT names values in
  insert tableName values c
  = (inr tt, written c tableName l' (recorded h now INSERT names values))
  /\ (exists r,
        Sqlite.t_rows l' = (Sqlite.t_rows l ++ [r])%list /\
        forall col v,
          In col (Sqlite.t_columns l) ->
          Js.get (Sqlite.col_name col) values = Some v ->
          (v = Js.Null -> Sqlite.is_primary_key col = false) ->
          Js.get (Sqlite.col_name col) r = Some v)
  /\ Sqlite.t_rows (recorded h now INSERT names values)
     = (Sqlite.t_rows h ++ [version])%list
  /\ Js.get "version_operation" version = Some (Js.Str "INSERT")
  /\ (forall k, In k names ->
                Js.get k version = Some (default Js.Null (Js.get k values)))
  /\ fits (Sqlite.t_columns h) version = true.
Proof.
  intros V Hcols Hrow _ Hhist Hid now names version.
  pose proof (history_name_apart _ _ _ _ V) as Hne.
  destruct (registered_found c tableName (v_registered _ _ _ _ V)) as [vt Hreg].
  destruct (check_columns_inv _ _ Hcols) as [_ Hsub].
  split; [|split; [|split; [|split; [|split]]]].
  - unfold insert. rewrite (bind_returns _ _ _ _ _ Hreg).
    erewrite bind_returns.
    2:{ apply sqlite_run_returns. rewrite (run_insert _ _ _ _ (v_live _ _ _ _ V) Hcols).
        rewrite Hrow. reflexivity. }
    rewrite (recordVersion_appends _ tableName h names values INSERT).
    + reflexivity.
    + cbn. rewrite lookup_insert_ne by exact Hne. apply (v_history _ _ _ _ V).
    + apply (v_layout _ _ _ _ V).
    + apply (v_apart _ _ _ _ V).
    + exact Hsub.
  - eexists. split; [apply (insert_row_inv _ _ _ _ Hrow)|].
    intros col v Hin Hget Hnull. rewrite get_built_row.
    + rewrite Hget. f_equal. now apply stored_supplied.
    + apply (v_names _ _ _ _ V).
    + exact Hin.
  - reflexivity.
  - reflexivity.
  - intros k Hk. apply get_version_attribute; [exact Hk|].
    pose proof (v_apart _ _ _ _ V) as Ha. rewrite List.Forall_forall in Ha.
    now apply Ha.
  - exact (version_row_fits _ _ _ _ _ _ (v_layout _ _ _ _ V)
             (v_apart _ _ _ _ V) Hid Hhist).
Qed.

Lemma get_assign a (r : Sqlite.row) k :
  Js.get k (Sqlite.assign a r)
  = match Js.get k r with
    | Some v => Some (default v (Js.get k a))
    | None => None
    end.
Proof.
  unfold Sqlite.assign. induction r as [|[k0 v0] r IH]; simpl; [reflexivity|].
  destruct (String.eqb_spec k k0) as [->|_]; [|exact IH].
  now destruct (Js.get k0 a).
Qed.

(** SET with values the columns keep leaves a row they keep. *)
Lemma fits_assign cols values (r : Sqlite.row) :
  fits cols r = true -> fits cols values = true ->
  fits cols (Sqlite.assign values r) = true.
Proof.
  unfold fits. rewrite !forallb_forall. intros Hr Hv x Hx.
  specialize (Hr x Hx). specialize (Hv x Hx). rewrite get_assign.
  destruct (Js.get (Sqlite.col_name x) r); [|reflexivity].
  now destruct (Js.get (Sqlite.col_name x) values).
Qed.

Lemma typed_updated l values w :
  typed l = true -> fits (Sqlite.t_columns l) values = true ->
  typed (updated l values w) = true.
Proof.
  unfold typed. cbn [updated Sqlite.t_columns Sqlite.t_rows].
  rewrite !forallb_forall. intros Hl Hv r' Hr'.
  apply in_map_iff in Hr' as (r & <- & Hr).
  destruct (Sqlite.matches w r); [|now apply Hl].
  apply fits_assign; [now apply Hl | exact Hv].
Qed.

Lemma typed_deleted l w :
  typed l = true -> typed (Sqlite.delete_rows l w) = true.
Proof.
  unfold typed. cbn [Sqlite.delete_rows Sqlite.t_columns Sqlite.t_rows].
  rewrite !forallb_forall. intros Hl r Hr.
  apply filter_In in Hr as [Hr _]. now apply Hl.
Qed.

Lemma typed_recorded h now op names vals :
  typed h = true ->
  fits (Sqlite.t_columns h)
       (version_row (Sqlite.next_key h "version_id") now op names vals) = true ->
  typed (recorded h now op names vals) = true.
Proof.
  unfold typed. cbn [recorded Sqlite.t_columns Sqlite.t_rows].
  intros Hh Hv. rewrite forallb_app. apply andb_true_iff. split; [exact Hh|].
  cbn [forallb]. now rewrite Hv.
Qed.

Lemma current_is_live l w current :
  shaped l ->
  List.find (Sqlite.matches w) (Sqlite.t_rows l) = Some current ->
  In current (Sqlite.t_rows l) /\ Sqlite.matches w current = true /\
  Js.keys current = Sqlite.column_names l.
Proof.
  intros Hs Hf. apply find_some in Hf as [Hin Hm].
  unfold shaped in Hs. rewrite List.Forall_forall in Hs. auto.
Qed.

Lemma live_lookup_written c tableName l h l' h' :
  versioned c tableName l h ->
  Sqlite.tables (sqlite (written c tableName l' h')) !! tableName = Some l'
  /\ Sqlite.tables (sqlite (written c tableName l' h'))
       !! history_name c tableName = Some h'.
Proof.
  intros V. pose proof (history_name_apart _ _ _ _ V) as Hne. cbn. split.
  - rewrite lookup_insert_ne by congruence. apply lookup_insert_eq.
  - apply lookup_insert_eq.
Qed.

Lemma update_not_found c tableName l values w :
  is_Some (versionedTables c !! tableName) ->
  Sqlite.tables (sqlite c) !! tableName = Some l ->
  Sqlite.check_columns l (Js.keys w) = inr tt ->
  (forall r, In r (Sqlite.t_rows l) -> Sqlite.matches w r = false) ->
  update tableName values w c = (inl RecordNotFound, c).
Proof.
  intros Hreg Hl Hw Hnone. destruct (registered_found _ _ Hreg) as [vt Hvt].
  unfold update. rewrite (bind_returns _ _ _ _ _ Hvt).
  erewrite bind_returns.
  2:{ apply sqlite_get_returns. apply (get_select _ _ _ _ Hl Hw). }
  apply find_matches_none in Hnone. now rewrite Hnone.
Qed.

Lemma delete_not_found c tableName l w :
  is_Some (versionedTables c !! tableName) ->
  Sqlite.tables (sqlite c) !! tableName = Some l ->
  Sqlite.check_columns l (Js.keys w) = inr tt ->
  (forall r, In r (Sqlite.t_rows l) -> Sqlite.matches w r = false) ->
  delete tableName w c = (inl RecordNotFound, c).
Proof.
  intros Hreg Hl Hw Hnone. destruct (registered_found _ _ Hreg) as [vt Hvt].
  unfold delete. rewrite (bind_returns _ _ _ _ _ Hvt).
  erewrite bind_returns.
  2:{ apply sqlite_get_returns. apply (get_select _ _ _ _ Hl Hw). }
  apply find_matches_none in Hnone. now rewrite Hnone.
Qed.

Lemma omit_version_row id now op names vals :
  Forall (fun k => ~ In k metadata_keys) names ->
  Js.omit metadata_keys (version_row id now op names vals)
  = map (fun k => (k, default Js.Null (Js.get k vals))) names.
Proof.
  intros Ha. unfold version_row, Js.omit. cbn [List.filter fst existsb metadata_keys].
  cbn. induction Ha as [|k names Hk _ IH]; [reflexivity|].
  cbn [map List.filter fst]. rewrite IH.
  apply existsb_eqb_not_In in Hk. unfold metadata_keys in Hk.
  cbn [existsb] in Hk. now rewrite Hk.
Qed.

(** The success path of [update], for any accepted SET. *)
Lemma update_writes c tableName l h values w current :
  versioned c tableName l h ->
  Sqlite.check_columns l (Js.keys w) = inr tt ->
  List.find (Sqlite.matches w) (Sqlite.t_rows l) = Some current ->
  Sqlite.check_columns l (Js.keys values) = inr tt ->
  Sqlite.update_rows l values w = inr (updated l values w) ->
  update tableName values w c
  = (inr tt,
     written c tableName (updated l values w)
       (recorded h (Sqlite.current_timestamp (sqlite c)) UPDATE
          (Sqlite.column_names l) (Js.spread current values))).
Proof.
  intros V Hw Hfind Hvals Hacc.
  pose proof (history_name_apart _ _ _ _ V) as Hne.
  destruct (registered_found c tableName (v_registered _ _ _ _ V)) as [vt Hreg].
  destruct (current_is_live _ _ _ (v_live_shaped _ _ _ _ V) Hfind)
    as (Hin & Hm & Hkeys).
  destruct (check_columns_inv _ _ Hvals) as [_ Hsub].
  unfold update. rewrite (bind_returns _ _ _ _ _ Hreg).
  erewrite bind_returns.
  2:{ apply sqlite_get_returns. apply (get_select _ _ _ _ (v_live _ _ _ _ V) Hw). }
  rewrite Hfind.
  erewrite bind_returns.
  2:{ apply sqlite_run_returns.
      rewrite (run_update _ _ _ _ _ (v_live _ _ _ _ V) Hvals Hw), Hacc.
      reflexivity. }
  rewrite (recordVersion_appends _ tableName h (Sqlite.column_names l) _ UPDATE).
  - reflexivity.
  - cbn. rewrite lookup_insert_ne by exact Hne. apply (v_history _ _ _ _ V).
  - apply (v_layout _ _ _ _ V).
  - apply (v_apart _ _ _ _ V).
  - intros k Hk. apply keys_spread in Hk as [Hk|Hk]; [|now apply Hsub].
    now rewrite <- Hkeys.
Qed.

(** C2, as amended. On a registered table whose live relation holds
    values read back as stored, and for a predicate over the live columns
    whose values those columns keep: [update] throws "Record not found" and
    changes nothing when no live row matches the predicate; when the first
    matching row is [current], the new values are over the live columns and
    kept by them, the merged row is kept by the history columns and the
    store accepts the UPDATE, it writes the new values and records exactly
    one version, with operation UPDATE, whose attributes are [current]
    merged with the new values, the new values winning on every key they
    have. The version and the live rows are read back as they were
    written. *)
Theorem update_records_merged_version c tableName l h :
  versioned c tableName l h ->
  typed l = true ->
  safe (Sqlite.next_key h "version_id") = true ->
  let now := Sqlite.current_timestamp (sqlite c) in
  let names := Sqlite.column_names l in
  (forall values w,
      Sqlite.check_columns l (Js.keys w) = inr tt ->
      fits (Sqlite.t_columns l) w = true ->
      (forall r, In r (Sqlite.t_rows l) -> Sqlite.matches w r = false) ->
      update tableName values w c = (inl RecordNotFound, c))
  /\ (forall values w current,
        Sqlite.check_columns l (Js.keys w) = inr tt ->
        fits (Sqlite.t_columns l) w = true ->
        List.find (Sqlite.matches w) (Sqlite.t_rows l) = Some current ->
        Sqlite.check_columns l (Js.keys values) = inr tt ->
        NoDup (Js.keys values) ->
        fits (Sqlite.t_columns l) values = true ->
        fits (Sqlite.t_columns h) (Js.spread current values) = true ->
        Sqlite.update_rows l values w = inr (updated l values w) ->
        let version :=
          version_row (Sqlite.next_key h "version_id") now UPDATE names
                      (Js.spread current values) in
        update tableName values w c
        = (inr tt,
           written c tableName (updated l values w)
             (recorded h now UPDATE names (Js.spread current values)))
        /\ (forall k v, Js.get k values = Some v ->
                        Js.get k (Sqlite.assign values current) = Some v)
        /\ Sqlite.t_rows (recorded h now UPDATE names (Js.spread current values))
           = (Sqlite.t_rows h ++ [version])%list
        /\ Js.get "version_operation" version = Some (Js.Str "UPDATE")
        /\ (forall k, In k names ->
              Js.get k version
              = match Js.get k values with
                | Some v => Some v
                | None => Js.get k current
                end)
        /\ fits (Sqlite.t_columns h) version = true
        /\ typed (updated l values w) = true).
Proof.
  intros V Htyped Hid now names. split.
  - intros values w Hw _ Hnone.
    exact (update_not_found _ _ _ _ _ (v_registered _ _ _ _ V)
             (v_live _ _ _ _ V) Hw Hnone).
  - intros values w current Hw _ Hfind Hvals Hnd Hkept Hmerged Hacc version.
    destruct (current_is_live _ _ _ (v_live_shaped _ _ _ _ V) Hfind)
      as (Hin & Hm & Hkeys).
    destruct (check_columns_inv _ _ Hvals) as [_ Hsub].
    pose proof (v_apart _ _ _ _ V) as Ha.
    split; [|split; [|split; [|split; [|split; [|split]]]]].
    + now apply update_writes.
    + intros k v Hget. rewrite get_assign.
      destruct (get_In k current) as [v0 ->].
      * rewrite Hkeys. apply Hsub. exact (get_Some_In _ _ _ Hget).
      * now rewrite Hget.
    + reflexivity.
    + reflexivity.
    + intros k Hk. unfold version. rewrite get_version_attribute.
      * rewrite (get_spread _ _ _ Hnd).
        destruct (Js.get k values); [reflexivity|].
        destruct (get_In k current) as [v ->]; [|reflexivity].
        now rewrite Hkeys.
      * exact Hk.
      * rewrite List.Forall_forall in Ha. now apply Ha.
    + exact (version_row_fits _ _ _ _ _ _ (v_layout _ _ _ _ V) Ha Hid Hmerged).
    + now apply typed_updated.
Qed.

(** C4, as amended. On a registered table whose live relation holds
    values read back as stored, and for a predicate over the live columns
    whose values those columns keep: [delete] throws "Record not found"
    when no live row matches the predicate; otherwise, when the history
    columns keep the values of the row it read, it removes the matching
    rows, records exactly one version, with operation DELETE, that carries
    the last values of that row and is read back as recorded, and
    afterwards [update] and [delete] with the same predicate both throw
    "Record not found". *)
Theorem delete_records_last_values c tableName l h :
  versioned c tableName l h ->
  typed l = true ->
  safe (Sqlite.next_key h "version_id") = true ->
  let now := Sqlite.current_timestamp (sqlite c) in
  let names := Sqlite.column_names l in
  (forall w,
      Sqlite.check_columns l (Js.keys w) = inr tt ->
      fits (Sqlite.t_columns l) w = true ->
      (forall r, In r (Sqlite.t_rows l) -> Sqlite.matches w r = false) ->
      delete tableName w c = (inl RecordNotFound, c))
  /\ (forall w current,
        Sqlite.check_columns l (Js.keys w) = inr tt ->
        fits (Sqlite.t_columns l) w = true ->
        List.find (Sqlite.matches w) (Sqlite.t_rows l) = Some current ->
        fits (Sqlite.t_columns h) current = true ->
        let version :=
          version_row (Sqlite.next_key h "version_id") now DELETE names current in
        let c' :=
          written c tableName (Sqlite.delete_rows l w)
                  (recorded h now DELETE names current) in
        delete tableName w c = (inr tt, c')
        /\ (forall r, In r (Sqlite.t_rows (Sqlite.delete_rows l w)) ->
                      Sqlite.matches w r = false)
        /\ Sqlite.t_rows (recorded h now DELETE names current)
           = (Sqlite.t_rows h ++ [version])%list
        /\ Js.get "version_operation" version = Some (Js.Str "DELETE")
        /\ Js.omit metadata_keys version = current
        /\ fits (Sqlite.t_columns h) version = true
        /\ typed (Sqlite.delete_rows l w) = true
        /\ (forall values, update tableName values w c' = (inl RecordNotFound, c'))
        /\ delete tableName w c' = (inl RecordNotFound, c')).
Proof.
  intros V Htyped Hid now names.
  pose proof (history_name_apart _ _ _ _ V) as Hne.
  split.
  - intros w Hw _ Hnone.
    exact (delete_not_found _ _ _ _ (v_registered _ _ _ _ V) (v_live _ _ _ _ V) Hw Hnone).
  - intros w current Hw _ Hfind Hcur version c'.
    destruct (registered_found c tableName (v_registered _ _ _ _ V)) as [vt Hreg].
    destruct (current_is_live _ _ _ (v_live_shaped _ _ _ _ V) Hfind)
      as (Hin & Hm & Hkeys).
    pose proof (v_apart _ _ _ _ V) as Ha.
    assert (Hgone : forall r, In r (Sqlite.t_rows (Sqlite.delete_rows l w)) ->
                              Sqlite.matches w r = false).
    { intros r Hr. cbn in Hr. apply filter_In in Hr as [_ Hr].
      now apply negb_true_iff in Hr. }
    destruct (live_lookup_written c tableName l h (Sqlite.delete_rows l w)
                (recorded h now DELETE names current) V) as [Hl' _].
    split; [|split; [|split; [|split; [|split; [|split; [|split; [|split]]]]]]].
    + unfold delete. rewrite (bind_returns _ _ _ _ _ Hreg).
      erewrite bind_returns.
      2:{ apply sqlite_get_returns. apply (get_select _ _ _ _ (v_live _ _ _ _ V) Hw). }
      rewrite Hfind.
      erewrite bind_returns.
      2:{ apply sqlite_run_returns.
          apply (run_delete _ _ _ _ (v_live _ _ _ _ V) Hw). }
      rewrite (recordVersion_appends _ tableName h names _ DELETE).
      * reflexivity.
      * cbn. rewrite lookup_insert_ne by exact Hne. apply (v_history _ _ _ _ V).
      * apply (v_layout _ _ _ _ V).
      * exact Ha.
      * intros k Hk. unfold names. now rewrite <- Hkeys.
    + exact Hgone.
    + reflexivity.
    + reflexivity.
    + unfold version. rewrite (omit_version_row _ _ _ _ _ Ha).
      unfold names. rewrite <- Hkeys. apply tabulate_self.
      rewrite Hkeys. apply (v_names _ _ _ _ V).
    + exact (version_row_fits _ _ _ _ _ _ (v_layout _ _ _ _ V) Ha Hid Hcur).
    + now apply typed_deleted.
    + intros values.
      apply (update_not_found c' tableName (Sqlite.delete_rows l w));
        [apply (v_registered _ _ _ _ V) | exact Hl' | exact Hw | exact Hgone].
    + apply (delete_not_found c' tableName (Sqlite.delete_rows l w));
        [apply (v_registered _ _ _ _ V) | exact Hl' | exact Hw | exact Hgone].
Qed.

Lemma matches_version_id n (r : Sqlite.row) :
  Sqlite.matches [("version_id", Js.Num n)] r
  = match Js.get "version_id" r with
    | Some (Js.Num m) => Z.eqb m n
    | _ => false
    end.
Proof.
  unfold Sqlite.matches. cbn [forallb fst snd].
  destruct (Js.get "version_id" r) as [[| m |]|]; simpl; try reflexivity.
  apply andb_true_r.
Qed.

(** Version numbers identify rows of an ascending history. *)
Lemma find_version rows V n :
  ascending rows -> In V rows -> Js.get "version_id" V = Some (Js.Num n) ->
  List.find (Sqlite.matches [("version_id", Js.Num n)]) rows = Some V.
Proof.
  intros [Hnum Hsorted] Hin HV.
  induction Hsorted as [|r rows Hs IH Hall]; [destruct Hin|].
  apply Forall_cons in Hnum as [[m Hm] Hnum].
  cbn [List.find]. rewrite matches_version_id, Hm.
  destruct Hin as [->|Hin].
  - rewrite HV in Hm. injection Hm as ->. now rewrite Z.eqb_refl.
  - rewrite List.Forall_forall in Hall. specialize (Hall V Hin).
    unfold version_number in Hall. rewrite Hm, HV in Hall.
    destruct (Z.eqb_spec m n); [lia|]. now apply IH.
Qed.

Lemma find_version_none rows n :
  (forall r, In r rows -> Js.get "version_id" r <> Some (Js.Num n)) ->
  List.find (Sqlite.matches [("version_id", Js.Num n)]) rows = None.
Proof.
  intros H. apply find_matches_none. intros r Hr.
  rewrite matches_version_id. specialize (H r Hr).
  destruct (Js.get "version_id" r) as [[| m |]|]; try reflexivity.
  destruct (Z.eqb_spec m n); [congruence | reflexivity].
Qed.

Lemma history_has_version_id h names :
  history_layout h names ->
  Sqlite.check_columns h ["version_id"] = inr tt.
Proof.
  intros (defs & Hcols & _). apply check_columns_ok; [discriminate|].
  intros k [<-|[]]. unfold Sqlite.column_names. rewrite Hcols. simpl. tauto.
Qed.

Lemma getVersion_reads c tableName h names n :
  Sqlite.tables (sqlite c) !! history_name c tableName = Some h ->
  history_layout h names ->
  getVersion tableName n c
  = (inr (List.find (Sqlite.matches [("version_id", Js.Num n)]) (Sqlite.t_rows h)), c).
Proof.
  intros Hh Hlay. unfold getVersion, bind, this.
  apply sqlite_get_returns.
  apply (get_select _ _ _ [("version_id", Js.Num n)] Hh).
  apply (history_has_version_id _ _ Hlay).
Qed.

Lemma history_column_names h names :
  history_layout h names ->
  Sqlite.column_names h = (metadata_keys ++ names)%list.
Proof.
  intros (defs & Hcols & Hnames & _). unfold Sqlite.column_names.
  now rewrite Hcols, map_app, Hnames.
Qed.

Lemma filter_apart names :
  Forall (fun k => ~ In k metadata_keys) names ->
  List.filter (fun k => negb (existsb (String.eqb k) metadata_keys)) names = names.
Proof.
  induction 1 as [|k names Hk _ IH]; [reflexivity|].
  cbn [List.filter]. apply existsb_eqb_not_In in Hk. now rewrite Hk, IH.
Qed.

(** What is left of a version row once the metadata is taken out. *)
Lemma keys_version_data c tableName l h V :
  versioned c tableName l h -> In V (Sqlite.t_rows h) ->
  Js.keys (Js.omit metadata_keys V) = Sqlite.column_names l
  /\ Js.keys V = (metadata_keys ++ Js.keys (Js.omit metadata_keys V))%list.
Proof.
  intros Vd Hin. pose proof (v_history_shaped _ _ _ _ Vd) as Hs.
  unfold shaped in Hs. rewrite List.Forall_forall in Hs.
  pose proof (Hs V Hin) as HV.
  rewrite (history_column_names _ _ (v_layout _ _ _ _ Vd)) in HV.
  assert (E : Js.keys (Js.omit metadata_keys V) = Sqlite.column_names l).
  { rewrite keys_omit, HV, List.filter_app.
    rewrite (filter_apart _ (v_apart _ _ _ _ Vd)). reflexivity. }
  split; [exact E | now rewrite E].
Qed.

(** Setting every column of a row leaves exactly the new values. *)
Lemma assign_all (data : Js.object) (r : Sqlite.row) :
  NoDup (Js.keys data) -> Js.keys r = Js.keys data ->
  Sqlite.assign data r = data.
Proof.
  intros Hnd Hkeys. rewrite <- (tabulate_self data Hnd) at 2.
  rewrite <- Hkeys. unfold Sqlite.assign, Js.keys. rewrite map_map.
  apply map_ext_in. intros [k v] Hkv. cbn [fst snd]. f_equal.
  destruct (get_In k data) as [v' ->]; [|reflexivity].
  rewrite <- Hkeys. apply in_map_iff. now exists (k, v).
Qed.

Lemma version_row_ext id now op names a b :
  (forall k, In k names -> Js.get k a = Js.get k b) ->
  version_row id now op names a = version_row id now op names b.
Proof.
  intros H. unfold version_row. do 3 f_equal.
  apply map_ext_in. intros k Hk. now rewrite (H k Hk).
Qed.

Lemma matches_keys w (r : Sqlite.row) k :
  Sqlite.matches w r = true -> In k (Js.keys w) -> In k (Js.keys r).
Proof.
  unfold Sqlite.matches. rewrite forallb_forall. intros H Hk.
  apply in_map_iff in Hk as ([k' v] & <- & Hkv). specialize (H _ Hkv).
  cbn [fst snd] in *. destruct (Js.get k' r) eqn:E; [|discriminate].
  exact (get_Some_In _ _ _ E).
Qed.

Lemma find_first {A} (p : A -> bool) (xs : list A) x :
  In x xs -> p x = true -> exists y, List.find p xs = Some y.
Proof.
  intros Hin Hp. destruct (List.find p xs) eqn:E; [eauto|].
  rewrite (find_none _ _ E x Hin) in Hp. discriminate.
Qed.

(** C1, as amended. For a registered table whose relations hold values
    read back as stored, a version [V] of its history with number [n] whose
    attributes the live columns keep, a live row matching a predicate those
    columns keep, and an UPDATE to [V]'s attributes that the store accepts:
    [rollback] takes exactly the three metadata keys out of [V], hands the
    rest to [update], leaves every matching live row equal to [V]'s
    attributes, and appends exactly one version, with operation UPDATE and
    the same attributes, after the existing versions, which stay as they
    were. Both relations are read back as they were written. *)
Theorem rollback_restores_version c tableName l h V n w r :
  versioned c tableName l h ->
  typed l = true -> typed h = true ->
  safe (Sqlite.next_key h "version_id") = true ->
  In V (Sqlite.t_rows h) -> Js.get "version_id" V = Some (Js.Num n) ->
  In r (Sqlite.t_rows l) -> Sqlite.matches w r = true -> w <> [] ->
  fits (Sqlite.t_columns l) w = true ->
  let data := Js.omit metadata_keys V in
  let now := Sqlite.current_timestamp (sqlite c) in
  let names := Sqlite.column_names l in
  let version :=
    version_row (Sqlite.next_key h "version_id") now UPDATE names data in
  fits (Sqlite.t_columns l) data = true ->
  Sqlite.update_rows l data w = inr (updated l data w) ->
  Js.keys V = (metadata_keys ++ Js.keys data)%list
  /\ rollback tableName {| versionId := n; where_ := w |} c
     = update tableName data w c
  /\ rollback tableName {| versionId := n; where_ := w |} c
     = (inr tt,
        written c tableName (updated l data w) (recorded h now UPDATE names data))
  /\ (forall r', In r' (Sqlite.t_rows l) -> Sqlite.matches w r' = true ->
                 Sqlite.assign data r' = data)
  /\ Sqlite.t_rows (recorded h now UPDATE names data)
     = (Sqlite.t_rows h ++ [version])%list
  /\ length (Sqlite.t_rows (recorded h now UPDATE names data))
     = S (length (Sqlite.t_rows h))
  /\ Js.get "version_operation" version = Some (Js.Str "UPDATE")
  /\ Js.omit metadata_keys version = data
  /\ typed (updated l data w) = true
  /\ typed (recorded h now UPDATE names data) = true.
Proof.
  intros Vd Hlive Hhist Hid HV Hvid Hr Hm Hw _ data now names version Hfit Hacc.
  destruct (registered_found c tableName (v_registered _ _ _ _ Vd)) as [vt Hreg].
  destruct (keys_version_data _ _ _ _ _ Vd HV) as [Hdata Hkeys].
  fold data in Hdata, Hkeys.
  pose proof (v_names _ _ _ _ Vd) as Hnd. rewrite <- Hdata in Hnd.
  pose proof (v_live_shaped _ _ _ _ Vd) as Hshape.
  unfold shaped in Hshape. rewrite List.Forall_forall in Hshape.
  assert (Hwc : Sqlite.check_columns l (Js.keys w) = inr tt).
  { apply check_columns_ok; [now destruct w|].
    intros k Hk. rewrite <- (Hshape r Hr). exact (matches_keys _ _ _ Hm Hk). }
  assert (Hdc : Sqlite.check_columns l (Js.keys data) = inr tt).
  { rewrite Hdata. destruct (check_columns_inv _ _ Hwc) as [Hne Hsub].
    apply check_columns_ok; [|auto].
    destruct w as [|[k v] w]; [congruence|].
    intros E. specialize (Hsub k (or_introl eq_refl)).
    rewrite E in Hsub. destruct Hsub. }
  destruct (find_first _ _ _ Hr Hm) as [current Hfind].
  destruct (current_is_live _ _ _ (v_live_shaped _ _ _ _ Vd) Hfind)
    as (_ & _ & Hcur).
  assert (Hdelegate :
            rollback tableName {| versionId := n; where_ := w |} c
            = update tableName data w c).
  { unfold rollback. rewrite (bind_returns _ _ _ _ _ Hreg).
    erewrite bind_returns.
    2:{ apply (getVersion_reads _ _ _ _ _ (v_history _ _ _ _ Vd) (v_layout _ _ _ _ Vd)). }
    cbn [versionId where_].
    now rewrite (find_version _ _ _ (v_ascending _ _ _ _ Vd) HV Hvid). }
  assert (Hrow : version_row (Sqlite.next_key h "version_id") now UPDATE names
                             (Js.spread current data) = version).
  { apply version_row_ext. intros k Hk. rewrite (get_spread _ _ _ Hnd).
    destruct (get_In k data) as [v ->]; [|reflexivity].
    now rewrite Hdata. }
  assert (Hkept : fits (Sqlite.t_columns h) data = true).
  { apply fits_omit. unfold typed in Hhist. rewrite forallb_forall in Hhist.
    now apply Hhist. }
  split; [|split; [|split; [|split; [|split; [|split; [|split; [|split; [|split]]]]]]]].
  - exact Hkeys.
  - exact Hdelegate.
  - rewrite Hdelegate.
    rewrite (update_writes _ _ _ _ _ _ _ Vd Hwc Hfind Hdc Hacc).
    unfold recorded. fold now names. now rewrite Hrow.
  - intros r' Hr' _. apply assign_all; [exact Hnd|].
    now rewrite Hdata, (Hshape r' Hr').
  - reflexivity.
  - cbn. rewrite length_app. simpl. lia.
  - reflexivity.
  - unfold version. rewrite (omit_version_row _ _ _ _ _ (v_apart _ _ _ _ Vd)).
    unfold names. rewrite <- Hdata. now apply tabulate_self.
  - now apply typed_updated.
  - apply typed_recorded; [exact Hhist|].
    exact (version_row_fits _ _ _ _ _ _ (v_layout _ _ _ _ Vd)
             (v_apart _ _ _ _ Vd) Hid Hkept).
Qed.

(** C7. For a registered table, [rollback] to a number no version carries
    throws "Version n not found" and leaves the instance, hence the live
    relation, as it was; [getVersion] for such a number returns [null]
    without throwing. *)
Theorem rollback_unknown_version c tableName l h n w :
  versioned c tableName l h ->
  (forall r, In r (Sqlite.t_rows h) -> Js.get "version_id" r <> Some (Js.Num n)) ->
  rollback tableName {| versionId := n; where_ := w |} c
  = (inl (VersionNotFound n), c)
  /\ getVersion tableName n c = (inr None, c).
Proof.
  intros Vd Habsent.
  destruct (registered_found c tableName (v_registered _ _ _ _ Vd)) as [vt Hreg].
  pose proof (getVersion_reads _ _ _ _ n (v_history _ _ _ _ Vd) (v_layout _ _ _ _ Vd))
    as Hget.
  rewrite (find_version_none _ _ Habsent) in Hget.
  split; [|exact Hget].
  unfold rollback. rewrite (bind_returns _ _ _ _ _ Hreg).
  cbn [versionId where_]. now rewrite (bind_returns _ _ _ _ _ Hget).
Qed.

(** C10. For a registered table, when the target version exists but no live
    row matches the predicate, [rollback] throws "Record not found" and the
    instance is as it was: no version is appended and the live relation is
    unchanged. *)
Theorem rollback_without_live_row c tableName l h V n w :
  versioned c tableName l h ->
  In V (Sqlite.t_rows h) -> Js.get "version_id" V = Some (Js.Num n) ->
  Sqlite.check_columns l (Js.keys w) = inr tt ->
  (forall r, In r (Sqlite.t_rows l) -> Sqlite.matches w r = false) ->
  rollback tableName {| versionId := n; where_ := w |} c
  = (inl RecordNotFound, c).
Proof.
  intros Vd HV Hid Hw Hnone.
  destruct (registered_found c tableName (v_registered _ _ _ _ Vd)) as [vt Hreg].
  unfold rollback. rewrite (bind_returns _ _ _ _ _ Hreg).
  erewrite bind_returns.
  2:{ apply (getVersion_reads _ _ _ _ _ (v_history _ _ _ _ Vd) (v_layout _ _ _ _ Vd)). }
  cbn [versionId where_].
  rewrite (find_version _ _ _ (v_ascending _ _ _ _ Vd) HV Hid).
  exact (update_not_found _ _ _ _ _ (v_registered _ _ _ _ Vd)
           (v_live _ _ _ _ Vd) Hw Hnone).
Qed.

End Engine.

(** ** Version retrieval *)

Section Versions.

Lemma Forall_kept {A} (P : A -> Prop) (p : A -> bool) (xs : list A) :
  Forall P xs -> Forall P (List.filter p xs).
Proof.
  rewrite !List.Forall_forall. intros H x Hx.
  apply filter_In in Hx as [Hx _]. auto.
Qed.

Lemma ascending_filter (p : Sqlite.row -> bool) rows :
  ascending rows -> ascending (List.filter p rows).
Proof.
  intros [Hnum Hsorted]. split; [now apply Forall_kept|].
  induction Hsorted as [|r rows Hs IH Hall]; [constructor|].
  apply Forall_cons in Hnum as [_ Hnum]. cbn [List.filter].
  destruct (p r); [|now apply IH].
  constructor; [now apply IH | now apply Forall_kept].
Qed.

(** ORDER BY version_id leaves an ascending sequence as it is. *)
Lemma order_by_ascending rows :
  ascending rows -> Sqlite.order_by "version_id" rows = rows.
Proof.
  intros [Hnum Hsorted].
  induction Hsorted as [|r rows Hs IH Hall]; [reflexivity|].
  apply Forall_cons in Hnum as [[n Hn] Hnum].
  cbn [Sqlite.order_by fold_right]. fold (Sqlite.order_by "version_id" rows).
  rewrite (IH Hnum). destruct rows as [|r' rows]; [reflexivity|].
  cbn [Sqlite.insert_sorted].
  apply Forall_cons in Hnum as [[n' Hn'] _].
  apply Forall_cons in Hall as [Hlt _].
  unfold version_number in Hlt. rewrite Hn, Hn' in *.
  cbn [Sqlite.value_leb]. destruct (Z.leb_spec n n'); [reflexivity | lia].
Qed.

Lemma version_number_below h (r : Sqlite.row) :
  In r (Sqlite.t_rows h) -> numbered r ->
  version_number r < Sqlite.next_key h "version_id".
Proof.
  intros Hin [n Hn]. unfold version_number. rewrite Hn.
  exact (next_key_above _ _ _ _ Hin Hn).
Qed.

(** A recorded version comes after every version already there. *)
Lemma ascending_recorded h now op names vals :
  ascending (Sqlite.t_rows h) ->
  ascending (Sqlite.t_rows (recorded h now op names vals)).
Proof.
  intros [Hnum Hsorted]. cbn [recorded Sqlite.t_rows]. split.
  - apply Forall_app. split; [exact Hnum|].
    constructor; [|constructor]. now eexists.
  - apply StronglySorted_app. split; [|split].
    + intros r r' Hr Hr'. apply list_elem_of_singleton in Hr'. subst r'.
      apply list_elem_of_In in Hr.
      change (version_number (version_row _ _ _ _ _))
        with (Sqlite.next_key h "version_id").
      apply version_number_below; [exact Hr|].
      rewrite List.Forall_forall in Hnum. now apply Hnum.
    + exact Hsorted.
    + repeat constructor.
Qed.


Lemma getVersions_reads c tableName h names w :
  Sqlite.tables (sqlite c) !! history_name c tableName = Some h ->
  history_layout h names ->
  Sqlite.check_columns h (Js.keys w) = inr tt ->
  getVersions tableName w c
  = (inr (Sqlite.order_by "version_id"
            (List.filter (Sqlite.matches w) (Sqlite.t_rows h))), c).
Proof.
  intros Hh Hlay Hw. unfold getVersions, bind, this, sqlite_all.
  fold (history_name c tableName).
  unfold Sqlite.all, Sqlite.find_table. rewrite Hh. cbn [Sqlite.and_then].
  rewrite Hw. cbn [Sqlite.and_then].
  rewrite (history_has_version_id _ _ Hlay). cbn [Sqlite.and_then].
  now rewrite bind_object.
Qed.

End Versions.

(** ** Registration and schema derivation *)

Section Registration.

Lemma columnDefs_derived table :
  columnDefs (List.filter (fun entry => is_column (snd entry)) table)
  = inr (derived table).
Proof.
  induction table as [|[key m] table IH]; [reflexivity|].
  cbn [List.filter snd]. unfold derived. cbn [flat_map].
  fold (derived table). unfold derived_column at 1. cbn [snd].
  destruct m as [| |d]; cbn [is_column]; try exact IH.
  destruct (name d) as [columnName|] eqn:E; [|exact IH].
  cbn [columnDefs]. unfold columnDef. cbn [snd fst]. now rewrite E, IH.
Qed.

Lemma createHistoryTable_runs c tableName table :
  createHistoryTable tableName table c
  = match derived table with
    | [] => (inl (SqliteError Sqlite.SyntaxError), c)
    | _ => sqlite_run (Sqlite.CreateTableIfNotExists (history_name c tableName)
                         (metadata ++ derived table)%list) [] c
    end.
Proof.
  unfold createHistoryTable, bind, this. rewrite columnDefs_derived.
  now destruct (derived table).
Qed.

Lemma duplicate_name_NoDup (names : list string) :
  NoDup names -> Sqlite.duplicate_name names = None.
Proof.
  induction 1 as [|n names Hn _ IH]; [reflexivity|].
  cbn [Sqlite.duplicate_name].
  destruct (existsb (String.eqb n) names) eqn:E; [|exact IH].
  apply existsb_eqb_In in E. exfalso. now apply Hn, list_elem_of_In.
Qed.

Lemma createHistoryTable_creates c tableName table :
  derived table <> [] ->
  Sqlite.tables (sqlite c) !! history_name c tableName = None ->
  Sqlite.duplicate_name (map Sqlite.col_name (metadata ++ derived table)) = None ->
  createHistoryTable tableName table c
  = (inr tt,
     with_sqlite (Sqlite.put_table (history_name c tableName) (created table)
                    (sqlite c)) c).
Proof.
  intros Hne Hfree Hdup. rewrite createHistoryTable_runs.
  destruct (derived table) as [|d0 defs] eqn:E; [congruence|].
  unfold sqlite_run, Sqlite.run. rewrite Hfree.
  cbn [app metadata]. cbn [app metadata] in Hdup. rewrite Hdup.
  unfold created. now rewrite E.
Qed.

Lemma registerTable_runs c table tableName :
  let vt := {| table := table;
               historyTableName := history_name c tableName;
               vt_config := config c |} in
  let c1 := {| sqlite := sqlite c;
               config := config c;
               versionedTables := <[tableName := vt]> (versionedTables c) |} in
  registerTable table tableName c
  = if autoCreateHistoryTables (config c)
    then match createHistoryTable tableName table c1 with
         | (inl e, c') => (inl e, c')
         | (inr _, c') => (inr vt, c')
         end
    else (inr vt, c1).
Proof.
  intros vt c1. unfold registerTable, bind, this, ret.
  fold (history_name c tableName). fold vt. fold c1.
  destruct (autoCreateHistoryTables (config c)); [|reflexivity].
  now destruct (createHistoryTable tableName table c1) as [[e|[]] c'].
Qed.

Lemma createHistoryTable_never_invalid c table tableName col :
  fst (createHistoryTable tableName table c) <> inl (InvalidColumnDefinition col).
Proof.
  rewrite createHistoryTable_runs.
  destruct (derived table); [discriminate|].
  unfold sqlite_run. now destruct (Sqlite.run _ _ _).
Qed.

(** The check for a member without a name is behind a filter that has
    already dropped every such member: schema derivation never throws
    "Invalid column definition", a member without a name contributes no
    column and the remaining members are derived as if it were not
    there. *)
Theorem nameless_descriptors_are_skipped c table tableName :
  columnDefs (List.filter (fun entry => is_column (snd entry)) table)
  = inr (derived table)
  /\ (forall entry, nameless entry -> derived_column entry = [])
  /\ (forall before entry after,
        nameless entry ->
        derived (before ++ entry :: after)%list = derived (before ++ after)%list)
  /\ (forall col,
        fst (createHistoryTable tableName table c)
        <> inl (InvalidColumnDefinition col))
  /\ (forall col,
        fst (registerTable table tableName c)
        <> inl (InvalidColumnDefinition col)).
Proof.
  assert (Hskip : forall entry, nameless entry -> derived_column entry = []).
  { intros entry (d & Hd & Hn). unfold derived_column. now rewrite Hd, Hn. }
  repeat split.
  - apply columnDefs_derived.
  - exact Hskip.
  - intros before entry after Hn. unfold derived.
    rewrite !flat_map_app. cbn [flat_map]. now rewrite (Hskip _ Hn).
  - intros col. apply createHistoryTable_never_invalid.
  - intros col. rewrite registerTable_runs. cbv zeta.
    destruct (autoCreateHistoryTables (config c)); [|discriminate].
    match goal with |- context [createHistoryTable ?t ?tb ?s] =>
      pose proof (createHistoryTable_never_invalid s tb t col) as H;
      destruct (createHistoryTable t tb s) as [[e|[]] c'] end.
    + cbn in *. intros [= ->]. now apply H.
    + discriminate.
Qed.

(** C3, as amended. Registration with auto-creation, when the history
    relation does not exist yet and the derived names are distinct and
    differ from the metadata names, creates a history relation whose
    columns are [version_id] (INTEGER PRIMARY KEY AUTOINCREMENT),
    [version_created_at] (TEXT, CURRENT_TIMESTAMP by default) and
    [version_operation] (TEXT, one of INSERT, UPDATE, DELETE), in that
    order, followed by the live columns in the order of the table object's
    keys. *)
Theorem history_columns_layout c table tableName :
  autoCreateHistoryTables (config c) = true ->
  derived table <> [] ->
  Sqlite.tables (sqlite c) !! history_name c tableName = None ->
  NoDup (map Sqlite.col_name (derived table)) ->
  Forall (fun k => ~ In k metadata_keys) (map Sqlite.col_name (derived table)) ->
  exists vt c' h,
    registerTable table tableName c = (inr vt, c')
    /\ historyTableName vt = history_name c tableName
    /\ Sqlite.tables (sqlite c') !! history_name c tableName = Some h
    /\ Sqlite.t_columns h
       = ([version_id; version_created_at; version_operation] ++ derived table)%list
    /\ Sqlite.t_rows h = [].
Proof.
  intros Hauto Hne Hfree Hnd Hapart.
  rewrite registerTable_runs, Hauto. cbv zeta.
  rewrite createHistoryTable_creates.
  - do 3 eexists. split; [reflexivity|]. split; [reflexivity|].
    split; [cbn; apply lookup_insert_eq|]. split; reflexivity.
  - exact Hne.
  - exact Hfree.
  - apply duplicate_name_NoDup. rewrite map_app. apply NoDup_app.
    split; [|split; [|exact Hnd]].
    + cbn. apply NoDup_ListNoDup. repeat constructor; cbn; intuition discriminate.
    + intros k Hk Hk'. rewrite List.Forall_forall in Hapart.
      apply (Hapart k); [now apply list_elem_of_In|].
      apply list_elem_of_In in Hk. exact Hk.
Qed.

End Registration.

(** ** The binding is an invariant *)

Section Invariant.

Lemma keys_version_row id now op names vals :
  Js.keys (version_row id now op names vals) = (metadata_keys ++ names)%list.
Proof.
  unfold version_row, Js.keys. cbn [map fst app metadata_keys]. do 3 f_equal.
  rewrite map_map. cbn [fst]. apply map_id.
Qed.

Lemma shaped_recorded h now op names vals :
  history_layout h names -> shaped h ->
  shaped (recorded h now op names vals).
Proof.
  intros Hlay Hs. unfold shaped in *. cbn [recorded Sqlite.t_rows].
  apply Forall_app. split; [exact Hs|].
  constructor; [|constructor].
  rewrite keys_version_row. symmetry. exact (history_column_names _ _ Hlay).
Qed.

Lemma keys_assign a (r : Sqlite.row) : Js.keys (Sqlite.assign a r) = Js.keys r.
Proof. unfold Sqlite.assign, Js.keys. rewrite map_map. reflexivity. Qed.

Lemma shaped_updated l a w : shaped l -> shaped (updated l a w).
Proof.
  unfold shaped. cbn [updated Sqlite.t_rows]. rewrite !List.Forall_forall.
  intros Hs r Hr. apply in_map_iff in Hr as (r0 & <- & Hr0).
  destruct (Sqlite.matches w r0); [rewrite keys_assign|]; exact (Hs r0 Hr0).
Qed.

Lemma shaped_deleted l w : shaped l -> shaped (Sqlite.delete_rows l w).
Proof.
  unfold shaped. cbn [Sqlite.delete_rows Sqlite.t_rows]. apply Forall_kept.
Qed.

Lemma insert_row_columns now l a l' :
  Sqlite.insert_row now l a = inr l' -> Sqlite.t_columns l' = Sqlite.t_columns l.
Proof.
  unfold Sqlite.insert_row. destruct (_ && _); [|discriminate].
  now intros [= <-].
Qed.

Lemma shaped_inserted now l a l' :
  Sqlite.insert_row now l a = inr l' -> shaped l -> shaped l'.
Proof.
  intros Hins Hs. unfold shaped in *.
  rewrite (insert_row_inv _ _ _ _ Hins). unfold Sqlite.column_names.
  rewrite (insert_row_columns _ _ _ _ Hins).
  apply Forall_app. split; [exact Hs|]. constructor; [|constructor].
  unfold Js.keys. rewrite map_map. reflexivity.
Qed.

(** Writing a live relation with the same columns and recording one more
    version keeps the binding intact. *)
Lemma versioned_written c tableName l h l' op vals :
  versioned c tableName l h ->
  Sqlite.t_columns l' = Sqlite.t_columns l -> shaped l' ->
  let h' := recorded h (Sqlite.current_timestamp (sqlite c)) op
                     (Sqlite.column_names l) vals in
  versioned (written c tableName l' h') tableName l' h'.
Proof.
  intros V Hcols Hs h'.
  assert (Hnames : Sqlite.column_names l' = Sqlite.column_names l).
  { unfold Sqlite.column_names. now rewrite Hcols. }
  destruct (live_lookup_written c tableName l h l' h' V) as [Hl' Hh'].
  split.
  - exact (v_registered _ _ _ _ V).
  - exact Hl'.
  - exact Hh'.
  - rewrite Hnames. exact (v_layout _ _ _ _ V).
  - rewrite Hnames. exact (v_names _ _ _ _ V).
  - rewrite Hnames. exact (v_apart _ _ _ _ V).
  - exact Hs.
  - apply shaped_recorded; [exact (v_layout _ _ _ _ V) | exact (v_history_shaped _ _ _ _ V)].
  - apply ascending_recorded. exact (v_ascending _ _ _ _ V).
Qed.

(** X6. Registering, with auto-creation, a live relation whose columns are
    the named members of the table object, distinct and none called like a
    metadata column, creates an empty history relation and leaves the table
    bound: the state every mutation and query is specified from. *)
Lemma registerTable_versions c table tableName l :
  autoCreateHistoryTables (config c) = true ->
  Sqlite.tables (sqlite c) !! tableName = Some l ->
  Sqlite.tables (sqlite c) !! history_name c tableName = None ->
  Sqlite.column_names l = map Sqlite.col_name (derived table) ->
  Sqlite.column_names l <> [] ->
  NoDup (Sqlite.column_names l) ->
  Forall (fun k => ~ In k metadata_keys) (Sqlite.column_names l) ->
  shaped l ->
  exists vt c',
    registerTable table tableName c = (inr vt, c')
    /\ versioned c' tableName l (created table).
Proof.
  intros Hauto Hl Hfree Hnames Hne Hnd Hapart Hs.
  assert (Hneq : tableName <> history_name c tableName).
  { intros E. rewrite <- E, Hl in Hfree. discriminate. }
  rewrite registerTable_runs, Hauto. cbv zeta.
  rewrite createHistoryTable_creates.
  - do 2 eexists. split; [reflexivity|]. split.
    + cbn. rewrite lookup_insert_eq. now eexists.
    + unfold history_name in *. cbn.
      rewrite lookup_insert_ne by congruence. exact Hl.
    + unfold history_name. cbn. apply lookup_insert_eq.
    + exists (derived table). repeat split; [now symmetry|].
      unfold derived. apply Forall_flat_map, List.Forall_forall.
      intros [key m] _. unfold derived_column. cbn [snd].
      destruct m as [| |d]; try constructor.
      destruct (name d); repeat constructor.
    + exact Hnd.
    + exact Hapart.
    + exact Hs.
    + constructor.
    + split; constructor.
  - intros E. rewrite Hnames, E in Hne. now apply Hne.
  - exact Hfree.
  - apply duplicate_name_NoDup. rewrite map_app, <- Hnames. apply NoDup_app.
    split; [|split; [|exact Hnd]].
    + cbn. apply NoDup_ListNoDup. repeat constructor; cbn; intuition discriminate.
    + intros k Hk Hk'. rewrite List.Forall_forall in Hapart.
      apply (Hapart k); [now apply list_elem_of_In|].
      apply list_elem_of_In in Hk. exact Hk.
Qed.

Lemma binding_survives_insert c tableName l h values l' :
  versioned c tableName l h ->
  Sqlite.insert_row (Sqlite.current_timestamp (sqlite c)) l values = inr l' ->
  let h' := recorded h (Sqlite.current_timestamp (sqlite c)) INSERT
                     (Sqlite.column_names l) values in
  versioned (written c tableName l' h') tableName l' h'.
Proof.
  intros V Hins. apply versioned_written; [exact V | |].
  - exact (insert_row_columns _ _ _ _ Hins).
  - exact (shaped_inserted _ _ _ _ Hins (v_live_shaped _ _ _ _ V)).
Qed.

Lemma binding_survives_update c tableName l h values w current :
  versioned c tableName l h ->
  let h' := recorded h (Sqlite.current_timestamp (sqlite c)) UPDATE
                     (Sqlite.column_names l) (Js.spread current values) in
  versioned (written c tableName (updated l values w) h') tableName
            (updated l values w) h'.
Proof.
  intros V. apply versioned_written; [exact V | reflexivity |].
  apply shaped_updated. exact (v_live_shaped _ _ _ _ V).
Qed.

Lemma binding_survives_delete c tableName l h w current :
  versioned c tableName l h ->
  let h' := recorded h (Sqlite.current_timestamp (sqlite c)) DELETE
                     (Sqlite.column_names l) current in
  versioned (written c tableName (Sqlite.delete_rows l w) h') tableName
            (Sqlite.delete_rows l w) h'.
Proof.
  intros V. apply versioned_written; [exact V | reflexivity |].
  apply shaped_deleted. exact (v_live_shaped _ _ _ _ V).
Qed.

End Invariant.

(** ** The running example *)

Section ExampleFacts.

Import Example.

Lemma instance_versioned rows seq versions vseq :
  shaped (live rows seq) -> shaped (history versions vseq) ->
  ascending versions ->
  versioned (instance (live rows seq) (history versions vseq)) "users"
            (live rows seq) (history versions vseq).
Proof.
  intros Hl Hh Hasc. split.
  - cbn. rewrite lookup_singleton_eq. now eexists.
  - cbn. rewrite lookup_insert_ne by discriminate. apply lookup_singleton_eq.
  - cbn. apply lookup_insert_eq.
  - exists (derived users). repeat split. cbn. repeat constructor.
  - cbn. apply NoDup_ListNoDup. repeat constructor; cbn; intuition discriminate.
  - cbn. repeat constructor; cbn; intuition discriminate.
  - exact Hl.
  - exact Hh.
  - exact Hasc.
Qed.

Lemma after_three_versioned :
  versioned after_three "users" (live [user 1 "V3"] 1) (history three_versions 3).
Proof.
  apply instance_versioned.
  - repeat constructor.
  - repeat constructor.
  - split.
    + repeat constructor; now eexists.
    + repeat constructor.
Qed.

(** Run from an instance that registered nothing, the scenario ends in
    [after_three]. *)
Example scenario_runs :
  scenario (unregistered (live [] 0)) = (inr tt, after_three).
Proof. vm_compute. reflexivity. Qed.

End ExampleFacts.

(** ** Unregistered names *)

Section Unregistered.

(** X7. On a name that is not registered, [insert], [update], [delete]
    and [rollback] throw "Table ... is not registered for versioning"
    before they reach the store: the instance is unchanged. *)
Lemma mutations_require_registration c tableName :
  versionedTables c !! tableName = None ->
  (forall values, insert tableName values c = (inl (NotRegistered tableName), c))
  /\ (forall values w,
        update tableName values w c = (inl (NotRegistered tableName), c))
  /\ (forall w, delete tableName w c = (inl (NotRegistered tableName), c))
  /\ (forall options,
        rollback tableName options c = (inl (NotRegistered tableName), c)).
Proof.
  intros H. pose proof (registered_missing _ _ H) as Hreg.
  repeat split; intros;
    [unfold insert | unfold update | unfold delete | unfold rollback];
    now rewrite (bind_throws _ _ _ _ _ Hreg).
Qed.

Import Example.

(** C8. The two queries do not consult the registry: on an instance that
    registered nothing, [getVersions] and [getVersion] return the rows of a
    history relation that happens to exist, and surface the store's "no
    such table" when it does not; neither reports that the table is not
    registered, as every mutation does. *)
Theorem queries_skip_the_registry :
  let known := stranger (live [user 1 "V3"] 1) (history three_versions 3) in
  let empty := unregistered (live [user 1 "V3"] 1) in
  versionedTables known !! "users" = None
  /\ getVersions "users" [("id", Js.Num 1)] known = (inr three_versions, known)
  /\ getVersion "users" 2 known = (inr (Some (version 2 UPDATE 1 "V2")), known)
  /\ getVersions "users" [("id", Js.Num 1)] empty
     = (inl (SqliteError (Sqlite.NoSuchTable "users_history")), empty)
  /\ getVersion "users" 2 empty
     = (inl (SqliteError (Sqlite.NoSuchTable "users_history")), empty).
Proof. cbv zeta. repeat split; vm_compute; reflexivity. Qed.

End Unregistered.

(** ** The statements on the running example *)

Section Instances.
Import Example.

(** C3, as stated, fails: the history relation of [users] opens with the
    three metadata columns, the live columns come last. *)
Lemma history_columns_not_live_first :
  Sqlite.column_names
    <$> (Sqlite.tables
           (sqlite (snd (registerTable users "users" (unregistered (live [] 0)))))
           !! "users_history")
  = Some ["version_id"; "version_created_at"; "version_operation"; "id"; "name"]
  /\ ["version_id"; "version_created_at"; "version_operation"; "id"; "name"]
     <> (["id"; "name"] ++ metadata_keys)%list.
Proof. split; [vm_compute; reflexivity | discriminate]. Qed.

(** C3, as amended, on [users]. *)
Lemma history_columns_layout_witness :
  exists vt c' h,
    registerTable users "users" (unregistered (live [] 0)) = (inr vt, c')
    /\ historyTableName vt = "users_history"
    /\ Sqlite.tables (sqlite c') !! "users_history" = Some h
    /\ Sqlite.t_columns h
       = ([version_id; version_created_at; version_operation] ++ derived users)%list
    /\ Sqlite.t_rows h = [].
Proof.
  apply (history_columns_layout (unregistered (live [] 0)) users "users").
  - reflexivity.
  - discriminate.
  - reflexivity.
  - apply NoDup_ListNoDup. repeat constructor; cbn; intuition discriminate.
  - repeat constructor; cbn; intuition discriminate.
Defined.

(** C9. Registering a table object that has a member without a name does
    not fail: [registerTable] returns the binding, and the history relation
    is created from the named members, the nameless one left out. *)
Lemma nameless_descriptor_is_not_rejected :
  Exists nameless users_with_nameless
  /\ fst (registerTable users_with_nameless "users" (unregistered (live [] 0)))
     = inr {| table := users_with_nameless;
              historyTableName := "users_history";
              vt_config := defaults |}
  /\ Sqlite.column_names
       <$> (Sqlite.tables
              (sqlite (snd (registerTable users_with_nameless "users"
                              (unregistered (live [] 0)))))
              !! "users_history")
     = Some ["version_id"; "version_created_at"; "version_operation"; "id"; "name"].
Proof.
  split; [|split; vm_compute; reflexivity].
  apply Exists_cons_tl, Exists_cons_hd. now eexists.
Qed.

(** The unreachable check on [users_with_nameless]. *)
Lemma nameless_descriptors_are_skipped_witness :
  derived users_with_nameless = derived users
  /\ fst (registerTable users_with_nameless "users" (unregistered (live [] 0)))
     <> inl (InvalidColumnDefinition "broken").
Proof.
  destruct (nameless_descriptors_are_skipped (unregistered (live [] 0))
              users_with_nameless "users") as (_ & _ & Hskip & _ & Hreg).
  split; [|apply Hreg].
  apply (Hskip [column_of "id" "integer"]
               ("broken", Object {| name := None; dataType := Some "text";
                                    columnType := None |})
               [column_of "name" "text"]).
  now eexists.
Defined.

(** C5, as stated, fails: an empty value map is refused by the store and
    no version is recorded; and a NULL supplied for the key column is not
    written as it is, the live row gets the key the store generates. *)
Lemma insert_is_not_always_verbatim :
  insert "users" [] after_three
  = (inl (SqliteError Sqlite.SyntaxError), after_three)
  /\ insert "users" [("id", Js.Null); ("name", Js.Str "Ann")] after_three
     = (inr tt, Cases.after_ann)
  /\ Sqlite.t_rows <$> (Sqlite.tables (sqlite Cases.after_ann) !! "users")
     = Some [user 1 "V3"; [("id", Js.Num 2); ("name", Js.Str "Ann")]].
Proof. repeat split; vm_compute; reflexivity. Qed.

(** C5, as amended, on the example: the store generates [id = 2] for the
    live row, the version keeps [id] NULL. *)
Lemma insert_records_supplied_values_witness :
  insert "users" [("name", Js.Str "Ann")] after_three
  = (inr tt,
     instance (live [user 1 "V3"; user 2 "Ann"] 2)
       (history (three_versions
                 ++ [[("version_id", Js.Num 4); ("version_created_at", Js.Str clock);
                      ("version_operation", Js.Str "INSERT");
                      ("id", Js.Null); ("name", Js.Str "Ann")]]) 4)).
Proof.
  destruct (insert_records_supplied_values after_three "users"
              (live [user 1 "V3"] 1) (history three_versions 3)
              [("name", Js.Str "Ann")]
              (live [user 1 "V3"; user 2 "Ann"] 2)
              after_three_versioned eq_refl eq_refl eq_refl eq_refl eq_refl)
    as [H _].
  rewrite H. vm_compute. reflexivity.
Defined.

(** C2, as stated, fails: with an empty predicate on a relation without
    rows, where no row matches, [update] throws the store's syntax error
    and not "Record not found"; and with a matching row, an empty value map
    or a NULL for the key is refused by the store, so that nothing is
    written and no version is recorded. *)
Lemma update_is_not_always_recorded :
  update "users" [("name", Js.Str "V4")] [] Cases.vacant
  = (inl (SqliteError Sqlite.SyntaxError), Cases.vacant)
  /\ List.find (Sqlite.matches [("id", Js.Num 1)]) [user 1 "V3"]
     = Some (user 1 "V3")
  /\ update "users" [] [("id", Js.Num 1)] after_three
     = (inl (SqliteError Sqlite.SyntaxError), after_three)
  /\ update "users" [("id", Js.Null)] [("id", Js.Num 1)] after_three
     = (inl (SqliteError Sqlite.ConstraintFailed), after_three).
Proof. repeat split; vm_compute; reflexivity. Qed.

(** C2, as amended, on the example, once with no matching row and once
    with one. *)
Lemma update_records_merged_version_witness :
  update "users" [("name", Js.Str "V4")] [("id", Js.Num 9)] after_three
  = (inl RecordNotFound, after_three)
  /\ update "users" [("name", Js.Str "V4")] [("id", Js.Num 1)] after_three
     = (inr tt,
        instance (live [user 1 "V4"] 1)
          (history (three_versions ++ [version 4 UPDATE 1 "V4"]) 4)).
Proof.
  destruct (update_records_merged_version after_three "users"
              (live [user 1 "V3"] 1) (history three_versions 3)
              after_three_versioned eq_refl eq_refl) as [Hnone Hsome].
  split.
  - apply Hnone; [reflexivity | reflexivity |].
    intros r [<-|[]]. reflexivity.
  - destruct (Hsome [("name", Js.Str "V4")] [("id", Js.Num 1)] (user 1 "V3")
                eq_refl eq_refl eq_refl eq_refl) as [H _].
    + apply NoDup_ListNoDup. repeat constructor. cbn. tauto.
    + reflexivity.
    + reflexivity.
    + reflexivity.
    + rewrite H. vm_compute. reflexivity.
Defined.

(** C4, as stated, fails: with an empty predicate on a relation without
    rows, or with a predicate over a column the live relation lacks, no row
    matches and [delete] throws the store's error, not "Record not found";
    and on a live relation that gained a column after its history relation
    was created, [delete] removes the matching row and then throws, so that
    no version is recorded. *)
Lemma delete_throws_other_errors :
  delete "users" [] Cases.vacant
  = (inl (SqliteError Sqlite.SyntaxError), Cases.vacant)
  /\ Sqlite.matches [("email", Js.Str "ann@example.org")] (user 1 "V3") = false
  /\ delete "users" [("email", Js.Str "ann@example.org")] after_three
     = (inl (SqliteError (Sqlite.NoSuchColumn "email")), after_three)
  /\ delete "users" [("id", Js.Num 1)]
       (instance (Cases.grown [[("id", Js.Num 1); ("name", Js.Str "Ann");
                                ("email", Js.Str "ann@example.org")]])
                 (history [] 0))
     = (inl (SqliteError (Sqlite.NoSuchColumn "email")),
        instance (Cases.grown []) (history [] 0)).
Proof. repeat split; vm_compute; reflexivity. Qed.

(** C4, as amended, on the example, once with no matching row and once
    with one. *)
Lemma delete_records_last_values_witness :
  delete "users" [("id", Js.Num 9)] after_three = (inl RecordNotFound, after_three)
  /\ delete "users" [("id", Js.Num 1)] after_three
     = (inr tt,
        instance (live [] 1)
          (history (three_versions ++ [version 4 DELETE 1 "V3"]) 4)).
Proof.
  destruct (delete_records_last_values after_three "users"
              (live [user 1 "V3"] 1) (history three_versions 3)
              after_three_versioned eq_refl eq_refl) as [Hnone Hsome].
  split.
  - apply Hnone; [reflexivity | reflexivity |].
    intros r [<-|[]]. reflexivity.
  - destruct (Hsome [("id", Js.Num 1)] (user 1 "V3")
                eq_refl eq_refl eq_refl eq_refl) as [H _].
    rewrite H. vm_compute. reflexivity.
Defined.

(** C1, as stated, fails: the version [insert] records for a value map
    without the key holds NULL for the key; it exists, the live row of key
    2 matches the predicate, and [rollback] to it throws, because the store
    refuses the UPDATE; no version is appended and the live row is as it
    was. *)
Lemma rollback_to_keyless_version_throws :
  insert "users" [("name", Js.Str "Ann")] after_three = (inr tt, Cases.after_ann)
  /\ getVersion "users" 4 Cases.after_ann
     = (inr (Some Cases.keyless), Cases.after_ann)
  /\ Sqlite.matches [("id", Js.Num 2)] (user 2 "Ann") = true
  /\ rollback "users" {| versionId := 4; where_ := [("id", Js.Num 2)] |}
              Cases.after_ann
     = (inl (SqliteError Sqlite.ConstraintFailed), Cases.after_ann).
Proof. repeat split; vm_compute; reflexivity. Qed.

(** C1, as amended, on the example: back to version 2. *)
Lemma rollback_restores_version_witness :
  rollback "users" {| versionId := 2; where_ := [("id", Js.Num 1)] |} after_three
  = (inr tt,
     instance (live [user 1 "V2"] 1)
       (history (three_versions ++ [version 4 UPDATE 1 "V2"]) 4)).
Proof.
  destruct (rollback_restores_version after_three "users"
              (live [user 1 "V3"] 1) (history three_versions 3)
              (version 2 UPDATE 1 "V2") 2 [("id", Js.Num 1)] (user 1 "V3")
              after_three_versioned eq_refl eq_refl eq_refl)
    as (_ & _ & H & _).
  - cbn. tauto.
  - reflexivity.
  - cbn. tauto.
  - reflexivity.
  - discriminate.
  - reflexivity.
  - reflexivity.
  - reflexivity.
  - rewrite H. vm_compute. reflexivity.
Defined.

(** C7 on the example: no version is numbered 99. *)
Lemma rollback_unknown_version_witness :
  rollback "users" {| versionId := 99; where_ := [("id", Js.Num 1)] |} after_three
  = (inl (VersionNotFound 99), after_three)
  /\ getVersion "users" 99 after_three = (inr None, after_three).
Proof.
  apply (rollback_unknown_version after_three "users"
           (live [user 1 "V3"] 1) (history three_versions 3) 99
           [("id", Js.Num 1)] after_three_versioned).
  intros r [<-|[<-|[<-|[]]]]; discriminate.
Defined.

(** C10 on the example: version 2 exists, key 9 does not. *)
Lemma rollback_without_live_row_witness :
  rollback "users" {| versionId := 2; where_ := [("id", Js.Num 9)] |} after_three
  = (inl RecordNotFound, after_three).
Proof.
  apply (rollback_without_live_row after_three "users"
           (live [user 1 "V3"] 1) (history three_versions 3)
           (version 2 UPDATE 1 "V2") 2 [("id", Js.Num 9)] after_three_versioned).
  - cbn. tauto.
  - reflexivity.
  - reflexivity.
  - intros r [<-|[]]. reflexivity.
Defined.


End Instances.

(** ** Every outcome of a mutation *)

Section Outcomes.

Implicit Types (c : state) (l h : Sqlite.table).

Lemma sqlite_run_throws s params c e :
  Sqlite.run s params (sqlite c) = inl e ->
  sqlite_run s params c = (inl (SqliteError e), c).
Proof. unfold sqlite_run. now intros ->. Qed.

Lemma sqlite_get_throws s params c e :
  Sqlite.get s params (sqlite c) = inl e ->
  sqlite_get s params c = (inl (SqliteError e), c).
Proof. unfold sqlite_get. now intros ->. Qed.

Lemma get_select_rejected d tableName l w e :
  Sqlite.tables d !! tableName = Some l ->
  Sqlite.check_columns l (Js.keys w) = inl e ->
  Sqlite.get (Sqlite.SelectAllFrom tableName (Js.keys w) None) (Js.values w) d
  = inl e.
Proof.
  intros Hl Hc. unfold Sqlite.get, Sqlite.all, Sqlite.find_table.
  rewrite Hl. cbn [Sqlite.and_then]. now rewrite Hc.
Qed.

Lemma run_insert_rejected d tableName l vals e :
  Sqlite.tables d !! tableName = Some l ->
  Sqlite.check_columns l (Js.keys vals) = inl e ->
  Sqlite.run (Sqlite.InsertInto tableName (Js.keys vals))
    (map (fun col => default Js.Null (Js.get col vals)) (Js.keys vals)) d
  = inl e.
Proof.
  intros Hl Hc. unfold Sqlite.run, Sqlite.find_table.
  rewrite Hl. cbn [Sqlite.and_then]. now rewrite Hc.
Qed.

Lemma run_update_rejected d tableName l vals w e :
  Sqlite.tables d !! tableName = Some l ->
  Sqlite.check_columns l (Js.keys vals) = inl e ->
  Sqlite.run (Sqlite.UpdateSet tableName (Js.keys vals) (Js.keys w))
    (Js.values vals ++ Js.values w) d
  = inl e.
Proof.
  intros Hl Hc. unfold Sqlite.run, Sqlite.find_table.
  rewrite Hl. cbn [Sqlite.and_then]. now rewrite Hc.
Qed.

(** What [insert] does on a bound table, case by case. *)
Lemma insert_runs c tableName l h values :
  versioned c tableName l h ->
  let now := Sqlite.current_timestamp (sqlite c) in
  insert tableName values c
  = match Sqlite.check_columns l (Js.keys values) with
    | inl e => (inl (SqliteError e), c)
    | inr _ =>
        match Sqlite.insert_row now l values with
        | inl e => (inl (SqliteError e), c)
        | inr l' =>
            (inr tt,
             written c tableName l'
               (recorded h now INSERT (Sqlite.column_names l) values))
        end
    end.
Proof.
  intros V now.
  pose proof (history_name_apart _ _ _ _ V) as Hne.
  destruct (registered_found c tableName (v_registered _ _ _ _ V)) as [vt Hreg].
  unfold insert. rewrite (bind_returns _ _ _ _ _ Hreg).
  destruct (Sqlite.check_columns l (Js.keys values)) as [e|[]] eqn:Hc.
  - apply bind_throws, sqlite_run_throws.
    exact (run_insert_rejected _ _ _ _ _ (v_live _ _ _ _ V) Hc).
  - destruct (Sqlite.insert_row now l values) as [e|l'] eqn:Hrow.
    + apply bind_throws, sqlite_run_throws.
      rewrite (run_insert _ _ _ _ (v_live _ _ _ _ V) Hc). fold now.
      now rewrite Hrow.
    + erewrite bind_returns.
      2:{ apply sqlite_run_returns.
          rewrite (run_insert _ _ _ _ (v_live _ _ _ _ V) Hc). fold now.
          rewrite Hrow. reflexivity. }
      destruct (check_columns_inv _ _ Hc) as [_ Hsub].
      rewrite (recordVersion_appends _ tableName h (Sqlite.column_names l)
                 values INSERT).
      * reflexivity.
      * cbn. rewrite lookup_insert_ne by exact Hne. apply (v_history _ _ _ _ V).
      * apply (v_layout _ _ _ _ V).
      * apply (v_apart _ _ _ _ V).
      * exact Hsub.
Qed.

(** What [update] does on a bound table, case by case. *)
Lemma update_runs c tableName l h values w :
  versioned c tableName l h ->
  let now := Sqlite.current_timestamp (sqlite c) in
  update tableName values w c
  = match Sqlite.check_columns l (Js.keys w) with
    | inl e => (inl (SqliteError e), c)
    | inr _ =>
        match List.find (Sqlite.matches w) (Sqlite.t_rows l) with
        | None => (inl RecordNotFound, c)
        | Some current =>
            match Sqlite.check_columns l (Js.keys values) with
            | inl e => (inl (SqliteError e), c)
            | inr _ =>
                match Sqlite.update_rows l values w with
                | inl e => (inl (SqliteError e), c)
                | inr l' =>
                    (inr tt,
                     written c tableName l'
                       (recorded h now UPDATE (Sqlite.column_names l)
                          (Js.spread current values)))
                end
            end
        end
    end.
Proof.
  intros V now.
  pose proof (history_name_apart _ _ _ _ V) as Hne.
  destruct (registered_found c tableName (v_registered _ _ _ _ V)) as [vt Hreg].
  unfold update. rewrite (bind_returns _ _ _ _ _ Hreg).
  destruct (Sqlite.check_columns l (Js.keys w)) as [e|[]] eqn:Hw.
  - apply bind_throws, sqlite_get_throws.
    exact (get_select_rejected _ _ _ _ _ (v_live _ _ _ _ V) Hw).
  - erewrite bind_returns.
    2:{ apply sqlite_get_returns. apply (get_select _ _ _ _ (v_live _ _ _ _ V) Hw). }
    destruct (List.find (Sqlite.matches w) (Sqlite.t_rows l)) as [current|] eqn:Hfind;
      [|reflexivity].
    destruct (current_is_live _ _ _ (v_live_shaped _ _ _ _ V) Hfind)
      as (Hin & Hm & Hkeys).
    destruct (Sqlite.check_columns l (Js.keys values)) as [e|[]] eqn:Hvals.
    + apply bind_throws, sqlite_run_throws.
      exact (run_update_rejected _ _ _ _ _ _ (v_live _ _ _ _ V) Hvals).
    + destruct (Sqlite.update_rows l values w) as [e|l'] eqn:Hacc.
      * apply bind_throws, sqlite_run_throws.
        rewrite (run_update _ _ _ _ _ (v_live _ _ _ _ V) Hvals Hw).
        now rewrite Hacc.
      * erewrite bind_returns.
        2:{ apply sqlite_run_returns.
            rewrite (run_update _ _ _ _ _ (v_live _ _ _ _ V) Hvals Hw), Hacc.
            reflexivity. }
        destruct (check_columns_inv _ _ Hvals) as [_ Hsub].
        rewrite (recordVersion_appends _ tableName h (Sqlite.column_names l)
                   _ UPDATE).
        -- reflexivity.
        -- cbn. rewrite lookup_insert_ne by exact Hne. apply (v_history _ _ _ _ V).
        -- apply (v_layout _ _ _ _ V).
        -- apply (v_apart _ _ _ _ V).
        -- intros k Hk. apply keys_spread in Hk as [Hk|Hk]; [|now apply Hsub].
           now rewrite <- Hkeys.
Qed.

(** What [delete] does on a bound table, case by case. *)
Lemma delete_runs c tableName l h w :
  versioned c tableName l h ->
  let now := Sqlite.current_timestamp (sqlite c) in
  delete tableName w c
  = match Sqlite.check_columns l (Js.keys w) with
    | inl e => (inl (SqliteError e), c)
    | inr _ =>
        match List.find (Sqlite.matches w) (Sqlite.t_rows l) with
        | None => (inl RecordNotFound, c)
        | Some current =>
            (inr tt,
             written c tableName (Sqlite.delete_rows l w)
               (recorded h now DELETE (Sqlite.column_names l) current))
        end
    end.
Proof.
  intros V now.
  pose proof (history_name_apart _ _ _ _ V) as Hne.
  destruct (registered_found c tableName (v_registered _ _ _ _ V)) as [vt Hreg].
  unfold delete. rewrite (bind_returns _ _ _ _ _ Hreg).
  destruct (Sqlite.check_columns l (Js.keys w)) as [e|[]] eqn:Hw.
  - apply bind_throws, sqlite_get_throws.
    exact (get_select_rejected _ _ _ _ _ (v_live _ _ _ _ V) Hw).
  - erewrite bind_returns.
    2:{ apply sqlite_get_returns. apply (get_select _ _ _ _ (v_live _ _ _ _ V) Hw). }
    destruct (List.find (Sqlite.matches w) (Sqlite.t_rows l)) as [current|] eqn:Hfind;
      [|reflexivity].
    destruct (current_is_live _ _ _ (v_live_shaped _ _ _ _ V) Hfind)
      as (Hin & Hm & Hkeys).
    erewrite bind_returns.
    2:{ apply sqlite_run_returns.
        apply (run_delete _ _ _ _ (v_live _ _ _ _ V) Hw). }
    rewrite (recordVersion_appends _ tableName h (Sqlite.column_names l)
               _ DELETE).
    + reflexivity.
    + cbn. rewrite lookup_insert_ne by exact Hne. apply (v_history _ _ _ _ V).
    + apply (v_layout _ _ _ _ V).
    + apply (v_apart _ _ _ _ V).
    + intros k Hk. now rewrite <- Hkeys.
Qed.

(** What [rollback] does on a bound table. *)
Lemma rollback_runs c tableName l h options :
  versioned c tableName l h ->
  rollback tableName options c
  = match List.find (Sqlite.matches [("version_id", Js.Num (versionId options))])
                    (Sqlite.t_rows h) with
    | None => (inl (VersionNotFound (versionId options)), c)
    | Some version =>
        update tableName (Js.omit metadata_keys version) (where_ options) c
    end.
Proof.
  intros V.
  destruct (registered_found c tableName (v_registered _ _ _ _ V)) as [vt Hreg].
  unfold rollback. rewrite (bind_returns _ _ _ _ _ Hreg).
  rewrite (bind_returns _ _ _ _ _
             (getVersion_reads _ _ _ _ (versionId options)
                (v_history _ _ _ _ V) (v_layout _ _ _ _ V))).
  now destruct (List.find _ _).
Qed.


Lemma update_rows_accepted l values w l' :
  Sqlite.update_rows l values w = inr l' -> l' = updated l values w.
Proof.
  unfold Sqlite.update_rows. destruct (_ && _); [|discriminate].
  now intros [= <-].
Qed.

Lemma unmatched_row_kept l values w r :
  In r (Sqlite.t_rows l) -> Sqlite.matches w r = false ->
  In r (Sqlite.t_rows (updated l values w)).
Proof.
  intros Hin Hm. cbn [updated Sqlite.t_rows]. apply in_map_iff.
  exists r. now rewrite Hm.
Qed.

(** The outcome of [update] on a bound table: nothing, or one write on
    each side. *)
Lemma update_outcome c tableName l h values w :
  versioned c tableName l h ->
  match update tableName values w c with
  | (inl _, c') => c' = c
  | (inr _, c') =>
      exists l' h' v,
        versioned c' tableName l' h'
        /\ Sqlite.t_rows h' = (Sqlite.t_rows h ++ [v])%list
        /\ Js.get "version_operation" v = Some (Js.Str "UPDATE")
        /\ length (Sqlite.t_rows l') = length (Sqlite.t_rows l)
        /\ (forall r, In r (Sqlite.t_rows l) -> Sqlite.matches w r = false ->
                      In r (Sqlite.t_rows l'))
  end.
Proof.
  intros V. rewrite (update_runs _ _ _ _ _ _ V). cbv zeta.
  destruct (Sqlite.check_columns l (Js.keys w)) as [e|[]]; [reflexivity|].
  destruct (List.find _ _) as [current|]; [|reflexivity].
  destruct (Sqlite.check_columns l (Js.keys values)) as [e|[]]; [reflexivity|].
  destruct (Sqlite.update_rows l values w) as [e|l'] eqn:Hacc; [reflexivity|].
  apply update_rows_accepted in Hacc. subst l'.
  do 3 eexists. split; [|split; [|split; [|split]]].
  - apply (binding_survives_update _ _ _ _ values w current V).
  - reflexivity.
  - reflexivity.
  - cbn. apply length_map.
  - intros r Hin Hm. now apply unmatched_row_kept.
Qed.



(** X10. On a bound table [delete] is all or nothing: when it throws, the
    instance is exactly as before; when it returns, the live relation keeps
    exactly the rows the predicate does not match, in order, the history
    has one more version, marked DELETE, and the table is still bound. *)
Theorem delete_is_all_or_nothing c tableName l h w :
  versioned c tableName l h ->
  match delete tableName w c with
  | (inl _, c') => c' = c
  | (inr _, c') =>
      exists l' h' v,
        versioned c' tableName l' h'
        /\ Sqlite.t_rows h' = (Sqlite.t_rows h ++ [v])%list
        /\ Js.get "version_operation" v = Some (Js.Str "DELETE")
        /\ Sqlite.t_rows l'
           = List.filter (fun r => negb (Sqlite.matches w r)) (Sqlite.t_rows l)
  end.
Proof.
  intros V. rewrite (delete_runs _ _ _ _ _ V). cbv zeta.
  destruct (Sqlite.check_columns l (Js.keys w)) as [e|[]]; [reflexivity|].
  destruct (List.find _ _) as [current|]; [|reflexivity].
  do 3 eexists. split; [|split; [|split]].
  - apply (binding_survives_delete _ _ _ _ w current V).
  - reflexivity.
  - reflexivity.
  - reflexivity.
Qed.

(** X11. On a bound table [rollback] is all or nothing: when it throws,
    whatever the reason, the instance is exactly as before; when it
    returns, the history has one more version, marked UPDATE, the live
    relation has as many rows as before and the table is still bound. *)
Theorem rollback_is_all_or_nothing c tableName l h options :
  versioned c tableName l h ->
  match rollback tableName options c with
  | (inl _, c') => c' = c
  | (inr _, c') =>
      exists l' h' v,
        versioned c' tableName l' h'
        /\ Sqlite.t_rows h' = (Sqlite.t_rows h ++ [v])%list
        /\ Js.get "version_operation" v = Some (Js.Str "UPDATE")
        /\ length (Sqlite.t_rows l') = length (Sqlite.t_rows l)
  end.
Proof.
  intros V. rewrite (rollback_runs _ _ _ _ _ V).
  destruct (List.find _ (Sqlite.t_rows h)) as [version|]; [|reflexivity].
  pose proof (update_outcome c tableName l h (Js.omit metadata_keys version)
                (where_ options) V) as H.
  destruct (update _ _ _ c) as [[e|u] c']; [exact H|].
  destruct H as (l' & h' & v & H1 & H2 & H3 & H4 & _).
  now exists l', h', v.
Qed.

End Outcomes.

(** ** Every outcome of a registration *)

Section RegistrationOutcomes.

Implicit Types (c : state).

Lemma sqlite_run_keeps_registry s params c :
  versionedTables (snd (sqlite_run s params c)) = versionedTables c
  /\ config (snd (sqlite_run s params c)) = config c.
Proof. unfold sqlite_run. now destruct (Sqlite.run s params (sqlite c)). Qed.

Lemma createHistoryTable_keeps_registry c tableName table :
  versionedTables (snd (createHistoryTable tableName table c)) = versionedTables c
  /\ config (snd (createHistoryTable tableName table c)) = config c.
Proof.
  rewrite createHistoryTable_runs. destruct (derived table); [easy|].
  apply sqlite_run_keeps_registry.
Qed.

(** X1. Whatever [registerTable] goes on to do, and also when creating the
    history relation throws, the instance it leaves has [tableName] bound
    to the new table object, with the history name [tableName] followed by
    the suffix; any binding the name had is replaced, the bindings of other
    names and the configuration stay. *)
Theorem registerTable_always_binds c table tableName :
  let c' := snd (registerTable table tableName c) in
  versionedTables c' !! tableName
  = Some {| table := table;
            historyTableName := tableName ++ historyTableSuffix (config c);
            vt_config := config c |}
  /\ (forall other, other <> tableName ->
                    versionedTables c' !! other = versionedTables c !! other)
  /\ config c' = config c.
Proof.
  cbv zeta. rewrite registerTable_runs. cbv zeta.
  destruct (autoCreateHistoryTables (config c)).
  - match goal with |- context [createHistoryTable ?t ?tb ?s] =>
      destruct (createHistoryTable_keeps_registry s t tb) as [Hreg Hcfg];
      destruct (createHistoryTable t tb s) as [[e|[]] c'] end;
      cbn [snd] in *; rewrite Hreg, Hcfg; cbn;
      (split; [apply lookup_insert_eq|]);
      (split; [|reflexivity]);
      intros other Hne; now apply lookup_insert_ne.
  - cbn. split; [apply lookup_insert_eq|]. split; [|reflexivity].
    intros other Hne. now apply lookup_insert_ne.
Qed.

(** X2. An instance constructed with [autoCreateHistoryTables: false]
    registers a table without touching the store and without throwing: the
    binding it returns is named [tableName] followed by the configured
    suffix, or by [_history] when none was given, and it is the only entry
    of the registry. *)
Theorem registerTable_without_auto_create db options table tableName :
  opt_autoCreateHistoryTables options = Some false ->
  exists vt c',
    registerTable table tableName (constructor db options) = (inr vt, c')
    /\ historyTableName vt
       = tableName ++ default "_history" (opt_historyTableSuffix options)
    /\ sqlite c' = db
    /\ versionedTables c' = {[tableName := vt]}.
Proof.
  intros Hoff. rewrite registerTable_runs. cbn [constructor config
    autoCreateHistoryTables]. rewrite Hoff. cbv zeta.
  do 2 eexists. split; [reflexivity|]. split; [reflexivity|].
  split; [reflexivity|]. cbn. apply insert_empty.
Qed.

(** X3. When the history relation already exists, registering again, even
    with another table object, succeeds and leaves the store exactly as it
    was (CREATE TABLE IF NOT EXISTS): the history schema is not brought up
    to date; only the binding is replaced. *)
Theorem registerTable_keeps_existing_history c table tableName h :
  autoCreateHistoryTables (config c) = true ->
  derived table <> [] ->
  Sqlite.tables (sqlite c) !! history_name c tableName = Some h ->
  exists vt c',
    registerTable table tableName c = (inr vt, c')
    /\ sqlite c' = sqlite c
    /\ versionedTables c' !! tableName = Some vt
    /\ Chronicle.table vt = table.
Proof.
  intros Hauto Hne Hh. rewrite registerTable_runs, Hauto. cbv zeta.
  rewrite createHistoryTable_runs.
  destruct (derived table) as [|d0 defs] eqn:E; [congruence|].
  unfold sqlite_run, Sqlite.run.
  change (history_name _ tableName) with (history_name c tableName).
  cbn [sqlite]. rewrite Hh.
  do 2 eexists. split; [reflexivity|]. split; [reflexivity|].
  split; [|reflexivity]. cbn. apply lookup_insert_eq.
Qed.

(** X4. A table object without any named member makes auto-creation throw
    the store's syntax error (the column list of the CREATE TABLE text ends
    in a comma); the store is untouched, but the name is registered all the
    same, because the binding is stored before the table is created. *)
Theorem registerTable_without_columns c table tableName :
  autoCreateHistoryTables (config c) = true ->
  derived table = [] ->
  exists c',
    registerTable table tableName c = (inl (SqliteError Sqlite.SyntaxError), c')
    /\ sqlite c' = sqlite c
    /\ is_Some (versionedTables c' !! tableName).
Proof.
  intros Hauto Hnone. rewrite registerTable_runs, Hauto. cbv zeta.
  rewrite createHistoryTable_runs, Hnone.
  eexists. split; [reflexivity|]. split; [reflexivity|].
  cbn. rewrite lookup_insert_eq. now eexists.
Qed.

Lemma duplicate_name_found (front back : list string) k :
  In k front -> In k back ->
  exists k', In k' front /\ Sqlite.duplicate_name (front ++ back) = Some k'.
Proof.
  induction front as [|n front IH]; [intros []|].
  intros Hk Hb. cbn [app Sqlite.duplicate_name].
  destruct (existsb (String.eqb n) (front ++ back)) eqn:E.
  - exists n. split; [now left | reflexivity].
  - destruct Hk as [->|Hk].
    + apply existsb_eqb_not_In in E. exfalso. apply E, in_or_app. now right.
    + destruct (IH Hk Hb) as (k' & Hk' & Hd). exists k'. split; [now right | exact Hd].
Qed.

(** X5. A live column named like one of the three metadata columns makes
    the creation of the history relation throw the store's duplicate-column
    error; nothing is created. *)
Theorem registerTable_rejects_metadata_names c table tableName k :
  autoCreateHistoryTables (config c) = true ->
  Sqlite.tables (sqlite c) !! history_name c tableName = None ->
  In k metadata_keys ->
  In k (map Sqlite.col_name (derived table)) ->
  exists k' c',
    registerTable table tableName c
    = (inl (SqliteError (Sqlite.DuplicateColumn k')), c')
    /\ sqlite c' = sqlite c.
Proof.
  intros Hauto Hfree Hk Hin. rewrite registerTable_runs, Hauto. cbv zeta.
  rewrite createHistoryTable_runs.
  destruct (derived table) as [|d0 defs] eqn:E; [destruct Hin|].
  rewrite <- E in *.
  destruct (duplicate_name_found metadata_keys
              (map Sqlite.col_name (derived table)) k Hk Hin) as (k' & Hk' & Hd).
  unfold sqlite_run, Sqlite.run.
  change (history_name _ tableName) with (history_name c tableName).
  cbn [sqlite]. rewrite Hfree.
  rewrite map_app.
  change (map Sqlite.col_name metadata) with metadata_keys.
  rewrite Hd.
  assert (Hne : (metadata ++ derived table)%list <> []) by discriminate.
  destruct (metadata ++ derived table)%list eqn:E2; [congruence|].
  exists k'. eexists. split; reflexivity.
Qed.

End RegistrationOutcomes.

(** ** When recording fails, and empty inputs *)

Section Failures.

Implicit Types (c : state) (l h : Sqlite.table).

Lemma recordVersion_without_history c tableName vals op :
  Sqlite.tables (sqlite c) !! history_name c tableName = None ->
  recordVersion tableName vals op c
  = (inl (SqliteError (Sqlite.NoSuchTable (history_name c tableName))), c).
Proof.
  intros Hnone. unfold recordVersion, bind, this, sqlite_run, Sqlite.run,
    Sqlite.find_table.
  fold (history_name c tableName). now rewrite Hnone.
Qed.

Lemma recordVersion_unknown_column c tableName h vals op k :
  Sqlite.tables (sqlite c) !! history_name c tableName = Some h ->
  Sqlite.missing_column h ("version_operation" :: Js.keys vals) = Some k ->
  recordVersion tableName vals op c
  = (inl (SqliteError (Sqlite.NoSuchColumn k)), c).
Proof.
  intros Hh Hk. unfold recordVersion, bind, this, sqlite_run, Sqlite.run,
    Sqlite.find_table.
  fold (history_name c tableName). rewrite Hh. cbn [Sqlite.and_then].
  unfold Sqlite.check_columns. now rewrite Hk.
Qed.

Lemma live_apart_from_missing c tableName l :
  Sqlite.tables (sqlite c) !! tableName = Some l ->
  Sqlite.tables (sqlite c) !! history_name c tableName = None ->
  tableName <> history_name c tableName.
Proof. intros Hl Hn E. rewrite <- E, Hl in Hn. discriminate. Qed.

(** X13. When the table is registered but its history relation does not
    exist (auto-creation off, relation never created), each mutation first
    performs its live write and then throws the store's "no such table":
    the live write stays and no version is recorded. *)
Theorem live_write_survives_missing_history c tableName l :
  is_Some (versionedTables c !! tableName) ->
  Sqlite.tables (sqlite c) !! tableName = Some l ->
  Sqlite.tables (sqlite c) !! history_name c tableName = None ->
  let failure := SqliteError (Sqlite.NoSuchTable (history_name c tableName)) in
  let kept l' := with_sqlite (Sqlite.put_table tableName l' (sqlite c)) c in
  (forall values l',
      Sqlite.check_columns l (Js.keys values) = inr tt ->
      Sqlite.insert_row (Sqlite.current_timestamp (sqlite c)) l values = inr l' ->
      insert tableName values c = (inl failure, kept l'))
  /\ (forall values w current l',
        Sqlite.check_columns l (Js.keys w) = inr tt ->
        List.find (Sqlite.matches w) (Sqlite.t_rows l) = Some current ->
        Sqlite.check_columns l (Js.keys values) = inr tt ->
        Sqlite.update_rows l values w = inr l' ->
        update tableName values w c = (inl failure, kept l'))
  /\ (forall w current,
        Sqlite.check_columns l (Js.keys w) = inr tt ->
        List.find (Sqlite.matches w) (Sqlite.t_rows l) = Some current ->
        delete tableName w c = (inl failure, kept (Sqlite.delete_rows l w))).
Proof.
  intros Hreg Hl Hnone failure kept.
  pose proof (live_apart_from_missing _ _ _ Hl Hnone) as Hne.
  destruct (registered_found _ _ Hreg) as [vt Hvt].
  assert (Hrec : forall l' vals op,
             recordVersion tableName vals op (kept l') = (inl failure, kept l')).
  { intros l' vals op. apply recordVersion_without_history.
    cbn. rewrite lookup_insert_ne by exact Hne. exact Hnone. }
  repeat split.
  - intros values l' Hc Hrow. unfold insert.
    rewrite (bind_returns _ _ _ _ _ Hvt).
    erewrite bind_returns.
    2:{ apply sqlite_run_returns. rewrite (run_insert _ _ _ _ Hl Hc), Hrow.
        reflexivity. }
    apply Hrec.
  - intros values w current l' Hw Hfind Hvals Hacc. unfold update.
    rewrite (bind_returns _ _ _ _ _ Hvt).
    erewrite bind_returns.
    2:{ apply sqlite_get_returns. apply (get_select _ _ _ _ Hl Hw). }
    rewrite Hfind.
    erewrite bind_returns.
    2:{ apply sqlite_run_returns.
        rewrite (run_update _ _ _ _ _ Hl Hvals Hw), Hacc. reflexivity. }
    apply Hrec.
  - intros w current Hw Hfind. unfold delete.
    rewrite (bind_returns _ _ _ _ _ Hvt).
    erewrite bind_returns.
    2:{ apply sqlite_get_returns. apply (get_select _ _ _ _ Hl Hw). }
    rewrite Hfind.
    erewrite bind_returns.
    2:{ apply sqlite_run_returns. apply (run_delete _ _ _ _ Hl Hw). }
    apply Hrec.
Qed.

(** X14. When the value map names a column the live relation has and the
    history relation lacks (a history relation created before the column
    was added), [insert] stores the live row and then throws the store's
    "no such column" for the first such column: the row stays, without a
    version. *)
Theorem insert_outruns_stale_history c tableName l h values l' k :
  is_Some (versionedTables c !! tableName) ->
  Sqlite.tables (sqlite c) !! tableName = Some l ->
  Sqlite.tables (sqlite c) !! history_name c tableName = Some h ->
  tableName <> history_name c tableName ->
  Sqlite.check_columns l (Js.keys values) = inr tt ->
  Sqlite.insert_row (Sqlite.current_timestamp (sqlite c)) l values = inr l' ->
  Sqlite.missing_column h ("version_operation" :: Js.keys values) = Some k ->
  insert tableName values c
  = (inl (SqliteError (Sqlite.NoSuchColumn k)),
     with_sqlite (Sqlite.put_table tableName l' (sqlite c)) c).
Proof.
  intros Hreg Hl Hh Hne Hc Hrow Hk.
  destruct (registered_found _ _ Hreg) as [vt Hvt].
  unfold insert. rewrite (bind_returns _ _ _ _ _ Hvt).
  erewrite bind_returns.
  2:{ apply sqlite_run_returns. rewrite (run_insert _ _ _ _ Hl Hc), Hrow.
      reflexivity. }
  apply (recordVersion_unknown_column _ _ h); [|exact Hk].
  cbn. rewrite lookup_insert_ne by exact Hne. exact Hh.
Qed.

(** X15. With the empty predicate [{}], [update], [delete] and
    [getVersions] throw the store's syntax error (the WHERE clause is
    empty) and change nothing; they do not act on every row. *)
Theorem empty_predicate_is_rejected c tableName l :
  is_Some (versionedTables c !! tableName) ->
  Sqlite.tables (sqlite c) !! tableName = Some l ->
  (forall values,
      update tableName values [] c = (inl (SqliteError Sqlite.SyntaxError), c))
  /\ delete tableName [] c = (inl (SqliteError Sqlite.SyntaxError), c)
  /\ (forall h, Sqlite.tables (sqlite c) !! history_name c tableName = Some h ->
                getVersions tableName [] c
                = (inl (SqliteError Sqlite.SyntaxError), c)).
Proof.
  intros Hreg Hl. destruct (registered_found _ _ Hreg) as [vt Hvt].
  repeat split.
  - intros values. unfold update. rewrite (bind_returns _ _ _ _ _ Hvt).
    apply bind_throws, sqlite_get_throws.
    unfold Sqlite.get, Sqlite.all, Sqlite.find_table. cbn [Js.keys map].
    now rewrite Hl.
  - unfold delete. rewrite (bind_returns _ _ _ _ _ Hvt).
    apply bind_throws, sqlite_get_throws.
    unfold Sqlite.get, Sqlite.all, Sqlite.find_table. cbn [Js.keys map].
    now rewrite Hl.
  - intros h Hh. unfold getVersions, bind, this, sqlite_all, Sqlite.all,
      Sqlite.find_table.
    fold (history_name c tableName). cbn [Js.keys map]. now rewrite Hh.
Qed.

(** X16. With the empty value map [{}], [insert] throws the store's syntax
    error; [update] throws "Record not found" when no row matches and the
    store's syntax error (the SET clause is empty) when one does; in every
    case nothing is written. *)
Theorem empty_value_map_is_rejected c tableName l :
  is_Some (versionedTables c !! tableName) ->
  Sqlite.tables (sqlite c) !! tableName = Some l ->
  insert tableName [] c = (inl (SqliteError Sqlite.SyntaxError), c)
  /\ (forall w,
        Sqlite.check_columns l (Js.keys w) = inr tt ->
        update tableName [] w c
        = (inl (match List.find (Sqlite.matches w) (Sqlite.t_rows l) with
                | Some _ => SqliteError Sqlite.SyntaxError
                | None => RecordNotFound
                end), c)).
Proof.
  intros Hreg Hl. destruct (registered_found _ _ Hreg) as [vt Hvt]. split.
  - unfold insert. rewrite (bind_returns _ _ _ _ _ Hvt).
    apply bind_throws, sqlite_run_throws.
    unfold Sqlite.run, Sqlite.find_table. cbn [Js.keys map]. now rewrite Hl.
  - intros w Hw. unfold update. rewrite (bind_returns _ _ _ _ _ Hvt).
    erewrite bind_returns.
    2:{ apply sqlite_get_returns. apply (get_select _ _ _ _ Hl Hw). }
    destruct (List.find _ _); [|reflexivity].
    apply bind_throws, sqlite_run_throws.
    unfold Sqlite.run, Sqlite.find_table. cbn [Js.keys map]. now rewrite Hl.
Qed.

End Failures.

(** ** What the queries return *)

Section Queries.

Implicit Types (c : state) (l h : Sqlite.table).

Lemma value_leb_total a b :
  Sqlite.value_leb a b = false -> Sqlite.value_leb b a = true.
Proof.
  destruct a as [[| x | s]|], b as [[| y | t]|]; cbn; try easy.
  - intros H. apply Z.leb_gt in H. apply Z.leb_le. lia.
  - rewrite (String.compare_antisym s t).
    now destruct (String.compare t s).
Qed.

Lemma insert_sorted_permutation k r rows :
  Permutation (Sqlite.insert_sorted k r rows) (r :: rows).
Proof.
  induction rows as [|r' rows IH]; cbn; [reflexivity|].
  destruct (Sqlite.value_leb _ _); [reflexivity|].
  rewrite IH. apply perm_swap.
Qed.

Lemma order_by_permutation k rows : Permutation (Sqlite.order_by k rows) rows.
Proof.
  induction rows as [|r rows IH]; cbn; [reflexivity|].
  fold (Sqlite.order_by k rows).
  rewrite insert_sorted_permutation. now constructor.
Qed.

Lemma insert_sorted_sorted r rows :
  Sorted by_version_id rows ->
  Sorted by_version_id (Sqlite.insert_sorted "version_id" r rows).
Proof.
  induction 1 as [|r' rows Hs IH Hhd]; cbn; [repeat constructor|].
  destruct (Sqlite.value_leb (Js.get "version_id" r) (Js.get "version_id" r'))
    eqn:E.
  - constructor; [now constructor|]. now constructor.
  - constructor; [exact IH|].
    apply value_leb_total in E.
    destruct rows as [|r'' rows]; cbn; [now constructor|].
    destruct (Sqlite.value_leb (Js.get "version_id" r) (Js.get "version_id" r''));
      constructor; [exact E|].
    now inversion Hhd.
Qed.

Lemma order_by_sorted rows :
  Sorted by_version_id (Sqlite.order_by "version_id" rows).
Proof.
  induction rows as [|r rows IH]; cbn; [constructor|].
  now apply insert_sorted_sorted.
Qed.

Lemma getVersions_runs c tableName h w :
  Sqlite.tables (sqlite c) !! history_name c tableName = Some h ->
  getVersions tableName w c
  = match Sqlite.check_columns h (Js.keys w) with
    | inl e => (inl (SqliteError e), c)
    | inr _ =>
        match Sqlite.check_columns h ["version_id"] with
        | inl e => (inl (SqliteError e), c)
        | inr _ =>
            (inr (Sqlite.order_by "version_id"
                    (List.filter (Sqlite.matches w) (Sqlite.t_rows h))), c)
        end
    end.
Proof.
  intros Hh. unfold getVersions, bind, this, sqlite_all, Sqlite.all,
    Sqlite.find_table.
  fold (history_name c tableName). rewrite Hh. cbn [Sqlite.and_then].
  destruct (Sqlite.check_columns h (Js.keys w)) as [e|[]]; [reflexivity|].
  cbn [Sqlite.and_then].
  destruct (Sqlite.check_columns h ["version_id"]) as [e|[]]; [reflexivity|].
  cbn [Sqlite.and_then]. now rewrite bind_object.
Qed.




(** X19. Whatever the history relation holds and in whatever order,
    the list [getVersions] returns is a rearrangement of exactly the rows
    matching the predicate, ordered by [version_id]; the instance is
    unchanged. *)
Theorem getVersions_sorts_what_is_stored c tableName h w found c' :
  Sqlite.tables (sqlite c) !! history_name c tableName = Some h ->
  getVersions tableName w c = (inr found, c') ->
  c' = c
  /\ Permutation found (List.filter (Sqlite.matches w) (Sqlite.t_rows h))
  /\ Sorted by_version_id found.
Proof.
  intros Hh. rewrite (getVersions_runs _ _ _ _ Hh).
  destruct (Sqlite.check_columns h (Js.keys w)) as [e|[]]; [discriminate|].
  destruct (Sqlite.check_columns h ["version_id"]) as [e|[]]; [discriminate|].
  intros [= <- <-]. split; [reflexivity|]. split.
  - apply order_by_permutation.
  - apply order_by_sorted.
Qed.

(** X18. When [getVersion] returns a row, the row is stored in the history
    relation of the table and carries the requested number; the instance
    is unchanged. *)
Theorem getVersion_returns_the_numbered_row c tableName n r c' :
  getVersion tableName n c = (inr (Some r), c') ->
  c' = c
  /\ Js.get "version_id" r = Some (Js.Num n)
  /\ exists h,
       Sqlite.tables (sqlite c) !! history_name c tableName = Some h
       /\ In r (Sqlite.t_rows h).
Proof.
  unfold getVersion, bind, this, sqlite_get, Sqlite.get, Sqlite.all,
    Sqlite.find_table.
  fold (history_name c tableName).
  destruct (Sqlite.tables (sqlite c) !! history_name c tableName) as [h|];
    [|discriminate].
  cbn [Sqlite.and_then].
  destruct (Sqlite.check_columns h ["version_id"]) as [e|[]]; [discriminate|].
  cbn [Sqlite.and_then Sqlite.bind_params length Nat.eqb combine lift ret].
  destruct (List.filter _ (Sqlite.t_rows h)) as [|r0 rest] eqn:E; [discriminate|].
  cbn. intros [= <- <-].
  assert (Hin : In r0 (List.filter (Sqlite.matches [("version_id", Js.Num n)])
                         (Sqlite.t_rows h))) by (rewrite E; now left).
  apply filter_In in Hin as [Hin Hm]. rewrite matches_version_id in Hm.
  split; [reflexivity|]. split; [|now exists h].
  destruct (Js.get "version_id" r0) as [[| m |]|]; try discriminate.
  apply Z.eqb_eq in Hm. now subst.
Qed.

End Queries.

(** ** How the operations compose *)

Section Compositions.

Implicit Types (c : state) (l h : Sqlite.table).

Lemma In_recorded h now op names vals :
  In (version_row (Sqlite.next_key h "version_id") now op names vals)
     (Sqlite.t_rows (recorded h now op names vals)).
Proof. cbn. apply in_or_app. right. now left. Qed.

(** X20. After a successful [insert] on a bound table whose history
    relation holds values read back as stored, of a value map the history
    columns keep, [getVersion] with the number the store assigned returns
    the version just recorded, and [getVersions] with a predicate the
    history columns keep and that version satisfies returns the earlier
    matching versions followed by it. *)
Theorem inserted_version_is_retrievable c tableName l h values c' :
  versioned c tableName l h ->
  typed h = true ->
  fits (Sqlite.t_columns h) values = true ->
  safe (Sqlite.next_key h "version_id") = true ->
  insert tableName values c = (inr tt, c') ->
  let id := Sqlite.next_key h "version_id" in
  let v := version_row id (Sqlite.current_timestamp (sqlite c)) INSERT
                       (Sqlite.column_names l) values in
  getVersion tableName id c' = (inr (Some v), c')
  /\ fits (Sqlite.t_columns h) v = true
  /\ (forall w,
        Sqlite.check_columns h (Js.keys w) = inr tt ->
        fits (Sqlite.t_columns h) w = true ->
        Sqlite.matches w v = true ->
        getVersions tableName w c'
        = (inr (List.filter (Sqlite.matches w) (Sqlite.t_rows h) ++ [v])%list, c')).
Proof.
  intros V _ Hfit Hid. rewrite (insert_runs _ _ _ _ _ V). cbv zeta.
  destruct (Sqlite.check_columns l (Js.keys values)) as [e|[]]; [discriminate|].
  destruct (Sqlite.insert_row _ l values) as [e|l'] eqn:Hrow; [discriminate|].
  intros [= <-].
  pose proof (binding_survives_insert _ _ _ _ _ _ V Hrow) as V'. cbv zeta in V'.
  split; [|split].
  - rewrite (getVersion_reads _ _ _ _ _ (v_history _ _ _ _ V') (v_layout _ _ _ _ V')).
    rewrite (find_version _ _ _ (v_ascending _ _ _ _ V') (In_recorded _ _ _ _ _));
      reflexivity.
  - exact (version_row_fits _ _ _ _ _ _ (v_layout _ _ _ _ V)
             (v_apart _ _ _ _ V) Hid Hfit).
  - intros w Hw _ Hm.
    rewrite (getVersions_reads _ _ _ _ _ (v_history _ _ _ _ V') (v_layout _ _ _ _ V') Hw).
    rewrite order_by_ascending
      by (apply ascending_filter; exact (v_ascending _ _ _ _ V')).
    cbn [recorded Sqlite.t_rows]. rewrite List.filter_app. cbn [List.filter].
    now rewrite Hm.
Qed.

Lemma written_elsewhere c tableName l' h' other :
  other <> tableName -> other <> history_name c tableName ->
  Sqlite.tables (sqlite (written c tableName l' h')) !! other
  = Sqlite.tables (sqlite c) !! other.
Proof.
  intros H1 H2. cbn. rewrite !lookup_insert_ne by congruence. reflexivity.
Qed.

Lemma same_elsewhere_refl c tableName : same_elsewhere c c tableName.
Proof. repeat split. Qed.

Lemma same_elsewhere_written c tableName l' h' :
  same_elsewhere c (written c tableName l' h') tableName.
Proof.
  repeat split. intros other H1 H2. now apply written_elsewhere.
Qed.

Lemma update_elsewhere c tableName l h values w :
  versioned c tableName l h ->
  same_elsewhere c (snd (update tableName values w c)) tableName.
Proof.
  intros V. rewrite (update_runs _ _ _ _ _ _ V). cbv zeta.
  destruct (Sqlite.check_columns l (Js.keys w)) as [e|[]];
    [apply same_elsewhere_refl|].
  destruct (List.find _ _) as [current|]; [|apply same_elsewhere_refl].
  destruct (Sqlite.check_columns l (Js.keys values)) as [e|[]];
    [apply same_elsewhere_refl|].
  destruct (Sqlite.update_rows l values w) as [e|l'];
    [apply same_elsewhere_refl | apply same_elsewhere_written].
Qed.

(** X12. The four mutations of a bound table touch its live relation and
    its history relation only: whether they return or throw, every other
    relation of the store, the registry and the configuration are as
    before. *)
Theorem mutations_leave_other_relations c tableName l h :
  versioned c tableName l h ->
  (forall values, same_elsewhere c (snd (insert tableName values c)) tableName)
  /\ (forall values w,
        same_elsewhere c (snd (update tableName values w c)) tableName)
  /\ (forall w, same_elsewhere c (snd (delete tableName w c)) tableName)
  /\ (forall options,
        same_elsewhere c (snd (rollback tableName options c)) tableName).
Proof.
  intros V. split; [|split; [|split]].
  - intros values. rewrite (insert_runs _ _ _ _ _ V). cbv zeta.
    destruct (Sqlite.check_columns l (Js.keys values)) as [e|[]];
      [apply same_elsewhere_refl|].
    destruct (Sqlite.insert_row _ l values) as [e|l'];
      [apply same_elsewhere_refl | apply same_elsewhere_written].
  - intros values w. apply (update_elsewhere _ _ _ _ _ _ V).
  - intros w. rewrite (delete_runs _ _ _ _ _ V). cbv zeta.
    destruct (Sqlite.check_columns l (Js.keys w)) as [e|[]];
      [apply same_elsewhere_refl|].
    destruct (List.find _ _) as [current|];
      [apply same_elsewhere_written | apply same_elsewhere_refl].
  - intros options. rewrite (rollback_runs _ _ _ _ _ V).
    destruct (List.find _ (Sqlite.t_rows h)); [|apply same_elsewhere_refl].
    apply (update_elsewhere _ _ _ _ _ _ V).
Qed.

(** X17. [recordVersion] of a value map the history columns keep, under a
    number JavaScript holds exactly, appends one row that has every column
    of the history relation: its number is assigned by the store and is
    above the number of every version already there, its timestamp is the
    store's clock, its operation is the one passed, and each live column
    holds the value of the value map, NULL where the map has none; the row
    is read back as it was recorded. *)
Theorem recordVersion_numbers_and_stamps c tableName h names values op :
  Sqlite.tables (sqlite c) !! history_name c tableName = Some h ->
  history_layout h names ->
  Forall (fun k => ~ In k metadata_keys) names ->
  (forall k, In k (Js.keys values) -> In k names) ->
  fits (Sqlite.t_columns h) values = true ->
  safe (Sqlite.next_key h "version_id") = true ->
  exists h' v id,
    recordVersion tableName values op c
    = (inr tt,
       with_sqlite (Sqlite.put_table (history_name c tableName) h' (sqlite c)) c)
    /\ Sqlite.t_columns h' = Sqlite.t_columns h
    /\ Sqlite.t_rows h' = (Sqlite.t_rows h ++ [v])%list
    /\ Js.keys v = Sqlite.column_names h
    /\ Js.get "version_id" v = Some (Js.Num id)
    /\ (forall r m, In r (Sqlite.t_rows h) ->
                    Js.get "version_id" r = Some (Js.Num m) -> m < id)
    /\ Js.get "version_created_at" v
       = Some (Js.Str (Sqlite.current_timestamp (sqlite c)))
    /\ Js.get "version_operation" v = Some (Js.Str (operation_text op))
    /\ (forall k, In k names ->
                  Js.get k v = Some (default Js.Null (Js.get k values)))
    /\ fits (Sqlite.t_columns h) v = true.
Proof.
  intros Hh Hlay Hapart Hsub Hfit Hid.
  exists (recorded h (Sqlite.current_timestamp (sqlite c)) op names values).
  exists (version_row (Sqlite.next_key h "version_id")
            (Sqlite.current_timestamp (sqlite c)) op names values).
  exists (Sqlite.next_key h "version_id").
  split; [now apply recordVersion_appends|].
  split; [reflexivity|]. split; [reflexivity|].
  split; [rewrite keys_version_row; symmetry; now apply history_column_names|].
  split; [reflexivity|].
  split; [intros r m Hr Hm; exact (next_key_above _ _ _ _ Hr Hm)|].
  split; [reflexivity|]. split; [reflexivity|].
  split; [|now apply version_row_fits].
  intros k Hk. apply get_version_attribute; [exact Hk|].
  rewrite List.Forall_forall in Hapart. now apply Hapart.
Qed.

Lemma matches_after_assign values w (r : Sqlite.row) :
  (forall k, In k (Js.keys w) -> Js.get k values = None) ->
  Sqlite.matches w (Sqlite.assign values r) = Sqlite.matches w r.
Proof.
  intros H. unfold Sqlite.matches.
  induction w as [|[k x] w IH]; [reflexivity|].
  cbn [forallb fst snd]. rewrite get_assign, (H k) by now left.
  rewrite IH by (intros k' Hk'; apply H; now right).
  now destruct (Js.get k r).
Qed.

Lemma version_data_facts c tableName l h V :
  versioned c tableName l h -> In V (Sqlite.t_rows h) ->
  let data := Js.omit metadata_keys V in
  Js.keys data = Sqlite.column_names l /\ NoDup (Js.keys data).
Proof.
  intros Vd HV data.
  destruct (keys_version_data _ _ _ _ _ Vd HV) as [Hdata _]. fold data in Hdata.
  split; [exact Hdata|]. rewrite Hdata. exact (v_names _ _ _ _ Vd).
Qed.

Lemma restored_rows l data w :
  NoDup (Js.keys data) ->
  (forall r, In r (Sqlite.t_rows l) -> Sqlite.matches w r = true -> r = data) ->
  Sqlite.t_rows (updated l data w) = Sqlite.t_rows l.
Proof.
  intros Hnd Hsame. cbn [updated Sqlite.t_rows].
  rewrite <- (map_id (Sqlite.t_rows l)) at 2. apply map_ext_in.
  intros r Hr. destruct (Sqlite.matches w r) eqn:Hm; [|reflexivity].
  rewrite (Hsame r Hr Hm). now apply assign_all.
Qed.

(** X21. Rolling back to a version whose attributes the matching live rows
    already have leaves the live rows as they are, and still appends a
    version, marked UPDATE, with those attributes. *)
Theorem rollback_to_current_still_records c tableName l h V n w c' :
  versioned c tableName l h ->
  In V (Sqlite.t_rows h) -> Js.get "version_id" V = Some (Js.Num n) ->
  (forall r, In r (Sqlite.t_rows l) -> Sqlite.matches w r = true ->
             r = Js.omit metadata_keys V) ->
  rollback tableName {| versionId := n; where_ := w |} c = (inr tt, c') ->
  exists l' h' v,
    Sqlite.tables (sqlite c') !! tableName = Some l'
    /\ Sqlite.t_rows l' = Sqlite.t_rows l
    /\ Sqlite.tables (sqlite c') !! history_name c tableName = Some h'
    /\ Sqlite.t_rows h' = (Sqlite.t_rows h ++ [v])%list
    /\ Js.get "version_operation" v = Some (Js.Str "UPDATE")
    /\ Js.omit metadata_keys v = Js.omit metadata_keys V.
Proof.
  intros Vd HV Hid Hsame.
  destruct (version_data_facts _ _ _ _ _ Vd HV) as [Hdata Hnd].
  rewrite (rollback_runs _ _ _ _ _ Vd). cbn [versionId where_].
  rewrite (find_version _ _ _ (v_ascending _ _ _ _ Vd) HV Hid).
  rewrite (update_runs _ _ _ _ _ _ Vd). cbv zeta.
  destruct (Sqlite.check_columns l (Js.keys w)) as [e|[]]; [discriminate|].
  destruct (List.find _ (Sqlite.t_rows l)) as [current|] eqn:Hfind; [|discriminate].
  destruct (Sqlite.check_columns l _) as [e|[]]; [discriminate|].
  destruct (Sqlite.update_rows l _ w) as [e|l'] eqn:Hacc; [discriminate|].
  apply update_rows_accepted in Hacc. subst l'. intros [= <-].
  destruct (live_lookup_written c tableName l h
              (updated l (Js.omit metadata_keys V) w)
              (recorded h (Sqlite.current_timestamp (sqlite c)) UPDATE
                 (Sqlite.column_names l)
                 (Js.spread current (Js.omit metadata_keys V))) Vd) as [Hl' Hh'].
  do 3 eexists. split; [exact Hl'|]. split; [now apply restored_rows|].
  split; [exact Hh'|]. split; [reflexivity|]. split; [reflexivity|].
  rewrite (omit_version_row _ _ _ _ _ (v_apart _ _ _ _ Vd)).
  transitivity
    (map (fun k => (k, default Js.Null (Js.get k (Js.omit metadata_keys V))))
         (Js.keys (Js.omit metadata_keys V))); [|now apply tabulate_self].
  rewrite Hdata. apply map_ext_in. intros k Hk. f_equal. f_equal.
  rewrite (get_spread _ _ _ Hnd).
  destruct (get_In k (Js.omit metadata_keys V)) as [x ->]; [|reflexivity].
  now rewrite Hdata.
Qed.

(** X22. An [update] that leaves the predicate's columns alone, followed by
    a [rollback] to the version holding the attributes the matching rows
    had, restores the live rows; the history has two more versions. *)
Theorem rollback_undoes_update c tableName l h V n values w c1 c2 :
  versioned c tableName l h ->
  In V (Sqlite.t_rows h) -> Js.get "version_id" V = Some (Js.Num n) ->
  (forall r, In r (Sqlite.t_rows l) -> Sqlite.matches w r = true ->
             r = Js.omit metadata_keys V) ->
  (forall k, In k (Js.keys w) -> Js.get k values = None) ->
  update tableName values w c = (inr tt, c1) ->
  rollback tableName {| versionId := n; where_ := w |} c1 = (inr tt, c2) ->
  exists l2 h2 v1 v2,
    Sqlite.tables (sqlite c2) !! tableName = Some l2
    /\ Sqlite.t_rows l2 = Sqlite.t_rows l
    /\ Sqlite.tables (sqlite c2) !! history_name c tableName = Some h2
    /\ Sqlite.t_rows h2 = (Sqlite.t_rows h ++ [v1; v2])%list.
Proof.
  intros Vd HV Hid Hsame Hkeep.
  destruct (version_data_facts _ _ _ _ _ Vd HV) as [Hdata Hnd].
  pose proof (v_live_shaped _ _ _ _ Vd) as Hshape.
  unfold shaped in Hshape. rewrite List.Forall_forall in Hshape.
  rewrite (update_runs _ _ _ _ _ _ Vd). cbv zeta.
  destruct (Sqlite.check_columns l (Js.keys w)) as [e|[]]; [discriminate|].
  destruct (List.find _ (Sqlite.t_rows l)) as [current|] eqn:Hfind; [|discriminate].
  destruct (Sqlite.check_columns l (Js.keys values)) as [e|[]]; [discriminate|].
  destruct (Sqlite.update_rows l values w) as [e|l1] eqn:Hacc; [discriminate|].
  apply update_rows_accepted in Hacc. subst l1. intros [= <-].
  pose proof (binding_survives_update _ _ _ _ values w current Vd) as V1.
  cbv zeta in V1.
  set (h1 := recorded h (Sqlite.current_timestamp (sqlite c)) UPDATE
               (Sqlite.column_names l) (Js.spread current values)) in *.
  set (c1 := written c tableName (updated l values w) h1) in *.
  assert (HV1 : In V (Sqlite.t_rows h1)) by (cbn; apply in_or_app; now left).
  rewrite (rollback_runs _ _ _ _ _ V1). cbn [versionId where_].
  rewrite (find_version _ _ _ (v_ascending _ _ _ _ V1) HV1 Hid).
  rewrite (update_runs _ _ _ _ _ _ V1). cbv zeta.
  destruct (Sqlite.check_columns (updated l values w) (Js.keys w)) as [e|[]];
    [discriminate|].
  destruct (List.find _ (Sqlite.t_rows (updated l values w))) as [current1|];
    [|discriminate].
  destruct (Sqlite.check_columns (updated l values w) _) as [e|[]]; [discriminate|].
  destruct (Sqlite.update_rows (updated l values w) _ w) as [e|l2] eqn:Hacc2;
    [discriminate|].
  apply update_rows_accepted in Hacc2. subst l2. intros [= <-].
  match goal with |- context [written c1 tableName ?l2 ?h2] =>
    destruct (live_lookup_written c1 tableName _ _ l2 h2 V1) as [Hl2 Hh2] end.
  do 4 eexists. split; [exact Hl2|]. split; [|split; [exact Hh2|]].
  - cbn [updated Sqlite.t_rows]. rewrite map_map.
    rewrite <- (map_id (Sqlite.t_rows l)) at 2. apply map_ext_in.
    intros r Hr. destruct (Sqlite.matches w r) eqn:Hm.
    + rewrite (matches_after_assign _ _ _ Hkeep), Hm.
      rewrite assign_all; [symmetry; now apply Hsame | exact Hnd |].
      rewrite keys_assign, Hdata. now apply Hshape.
    + now rewrite Hm.
  - cbn [recorded Sqlite.t_rows h1]. rewrite <- app_assoc. reflexivity.
Qed.

End Compositions.

(** ** The further statements on the running example *)

Section MoreInstances.

Import Example Cases.

(** X2 on an instance built with the suffix [_archive]. *)
Lemma registerTable_without_auto_create_witness :
  exists vt c',
    registerTable users "users" (constructor (sqlite (unregistered (live [] 0))) manual)
    = (inr vt, c')
    /\ historyTableName vt = "users_archive"
    /\ sqlite c' = sqlite (unregistered (live [] 0))
    /\ versionedTables c' = {["users" := vt]}.
Proof.
  apply (registerTable_without_auto_create (sqlite (unregistered (live [] 0)))
           manual users "users").
  reflexivity.
Defined.

(** X3: [users] registered again, with another table object. *)
Lemma registerTable_keeps_existing_history_witness :
  exists vt c',
    registerTable users_with_nameless "users" after_three = (inr vt, c')
    /\ sqlite c' = sqlite after_three
    /\ versionedTables c' !! "users" = Some vt
    /\ Chronicle.table vt = users_with_nameless.
Proof.
  apply (registerTable_keeps_existing_history after_three users_with_nameless
           "users" (history three_versions 3)).
  - reflexivity.
  - discriminate.
  - apply lookup_insert_eq.
Defined.

(** X4 on a table object with no named member. *)
Lemma registerTable_without_columns_witness :
  exists c',
    registerTable no_columns "users" (unregistered (live [] 0))
    = (inl (SqliteError Sqlite.SyntaxError), c')
    /\ sqlite c' = sqlite (unregistered (live [] 0))
    /\ is_Some (versionedTables c' !! "users").
Proof.
  apply (registerTable_without_columns (unregistered (live [] 0)) no_columns "users");
    reflexivity.
Defined.

(** X5 on a table object with a column [version_operation]. *)
Lemma registerTable_rejects_metadata_names_witness :
  exists k' c',
    registerTable clashing "users" (unregistered (live [] 0))
    = (inl (SqliteError (Sqlite.DuplicateColumn k')), c')
    /\ sqlite c' = sqlite (unregistered (live [] 0)).
Proof.
  apply (registerTable_rejects_metadata_names (unregistered (live [] 0)) clashing
           "users" "version_operation").
  - reflexivity.
  - cbn. now apply lookup_singleton_ne.
  - cbn. tauto.
  - cbn. tauto.
Defined.

(** X6 on [users]. *)
Lemma registerTable_versions_witness :
  exists vt c',
    registerTable users "users" (unregistered (live [] 0)) = (inr vt, c')
    /\ versioned c' "users" (live [] 0) (created users).
Proof.
  apply (registerTable_versions (unregistered (live [] 0)) users "users" (live [] 0)).
  - reflexivity.
  - apply lookup_singleton_eq.
  - cbn. now apply lookup_singleton_ne.
  - reflexivity.
  - discriminate.
  - apply NoDup_ListNoDup. repeat constructor; cbn; intuition discriminate.
  - repeat constructor; cbn; intuition discriminate.
  - constructor.
Defined.

(** X7 on an instance that registered nothing. *)
Lemma mutations_require_registration_witness :
  insert "users" (user 1 "V1") (unregistered (live [] 0))
  = (inl (NotRegistered "users"), unregistered (live [] 0))
  /\ rollback "users" {| versionId := 1; where_ := [("id", Js.Num 1)] |}
       (unregistered (live [] 0))
     = (inl (NotRegistered "users"), unregistered (live [] 0)).
Proof.
  destruct (mutations_require_registration (unregistered (live [] 0)) "users")
    as (Hi & _ & _ & Hr); [apply lookup_empty|].
  split; [apply Hi | apply Hr].
Defined.




(** X10 on the example. *)
Lemma delete_is_all_or_nothing_witness :
  match delete "users" [("id", Js.Num 1)] after_three with
  | (inl _, c') => c' = after_three
  | (inr _, c') =>
      exists l' h' v,
        versioned c' "users" l' h'
        /\ Sqlite.t_rows h' = (three_versions ++ [v])%list
        /\ Js.get "version_operation" v = Some (Js.Str "DELETE")
        /\ Sqlite.t_rows l'
           = List.filter (fun r => negb (Sqlite.matches [("id", Js.Num 1)] r))
                         [user 1 "V3"]
  end.
Proof.
  exact (delete_is_all_or_nothing after_three "users" (live [user 1 "V3"] 1)
           (history three_versions 3) [("id", Js.Num 1)] after_three_versioned).
Defined.

(** X11 on the example. *)
Lemma rollback_is_all_or_nothing_witness :
  match rollback "users" {| versionId := 1; where_ := [("id", Js.Num 1)] |}
                 after_three with
  | (inl _, c') => c' = after_three
  | (inr _, c') =>
      exists l' h' v,
        versioned c' "users" l' h'
        /\ Sqlite.t_rows h' = (three_versions ++ [v])%list
        /\ Js.get "version_operation" v = Some (Js.Str "UPDATE")
        /\ length (Sqlite.t_rows l') = 1%nat
  end.
Proof.
  exact (rollback_is_all_or_nothing after_three "users" (live [user 1 "V3"] 1)
           (history three_versions 3)
           {| versionId := 1; where_ := [("id", Js.Num 1)] |}
           after_three_versioned).
Defined.

(** X13 on [users] without its history relation. *)
Lemma live_write_survives_missing_history_witness :
  let c := without_history (live [user 1 "V3"] 1) in
  let failure := SqliteError (Sqlite.NoSuchTable "users_history") in
  let kept l' := with_sqlite (Sqlite.put_table "users" l' (sqlite c)) c in
  insert "users" (user 2 "Ann") c
  = (inl failure, kept (live [user 1 "V3"; user 2 "Ann"] 2))
  /\ update "users" [("name", Js.Str "V4")] [("id", Js.Num 1)] c
     = (inl failure, kept (live [user 1 "V4"] 1))
  /\ delete "users" [("id", Js.Num 1)] c = (inl failure, kept (live [] 1)).
Proof.
  intros c failure kept.
  destruct (live_write_survives_missing_history c "users" (live [user 1 "V3"] 1))
    as (Hi & Hu & Hd).
  - cbn. rewrite lookup_singleton_eq. now eexists.
  - apply lookup_singleton_eq.
  - cbn. now apply lookup_singleton_ne.
  - split; [|split].
    + apply (Hi (user 2 "Ann") (live [user 1 "V3"; user 2 "Ann"] 2)); reflexivity.
    + apply (Hu [("name", Js.Str "V4")] [("id", Js.Num 1)] (user 1 "V3")
                (live [user 1 "V4"] 1)); reflexivity.
    + apply (Hd [("id", Js.Num 1)] (user 1 "V3")); reflexivity.
Defined.

(** X14: the live relation has gained [email]. *)
Lemma insert_outruns_stale_history_witness :
  let c := instance (grown []) (history [] 0) in
  let values := [("id", Js.Num 1); ("name", Js.Str "Ann");
                 ("email", Js.Str "ann@example.com")] in
  let l' := {| Sqlite.t_columns := Sqlite.t_columns (grown []);
               Sqlite.t_rows := [values];
               Sqlite.t_seq := 1 |} in
  insert "users" values c
  = (inl (SqliteError (Sqlite.NoSuchColumn "email")),
     with_sqlite (Sqlite.put_table "users" l' (sqlite c)) c).
Proof.
  intros c values l'.
  apply (insert_outruns_stale_history c "users" (grown []) (history [] 0)
           values l' "email").
  - cbn. rewrite lookup_singleton_eq. now eexists.
  - cbn. rewrite lookup_insert_ne by discriminate. apply lookup_singleton_eq.
  - apply lookup_insert_eq.
  - discriminate.
  - reflexivity.
  - reflexivity.
  - reflexivity.
Defined.

(** X15 on the example. *)
Lemma empty_predicate_is_rejected_witness :
  update "users" [("name", Js.Str "V4")] [] after_three
  = (inl (SqliteError Sqlite.SyntaxError), after_three)
  /\ delete "users" [] after_three
     = (inl (SqliteError Sqlite.SyntaxError), after_three)
  /\ getVersions "users" [] after_three
     = (inl (SqliteError Sqlite.SyntaxError), after_three).
Proof.
  destruct (empty_predicate_is_rejected after_three "users" (live [user 1 "V3"] 1))
    as (Hu & Hd & Hg).
  - cbn. rewrite lookup_singleton_eq. now eexists.
  - cbn. rewrite lookup_insert_ne by discriminate. apply lookup_singleton_eq.
  - split; [apply Hu|]. split; [exact Hd|].
    apply (Hg (history three_versions 3)). apply lookup_insert_eq.
Defined.

(** X16 on the example. *)
Lemma empty_value_map_is_rejected_witness :
  insert "users" [] after_three
  = (inl (SqliteError Sqlite.SyntaxError), after_three)
  /\ update "users" [] [("id", Js.Num 1)] after_three
     = (inl (SqliteError Sqlite.SyntaxError), after_three)
  /\ update "users" [] [("id", Js.Num 9)] after_three
     = (inl RecordNotFound, after_three).
Proof.
  destruct (empty_value_map_is_rejected after_three "users" (live [user 1 "V3"] 1))
    as (Hi & Hu).
  - cbn. rewrite lookup_singleton_eq. now eexists.
  - cbn. rewrite lookup_insert_ne by discriminate. apply lookup_singleton_eq.
  - split; [exact Hi|]. split.
    + exact (Hu [("id", Js.Num 1)] eq_refl).
    + exact (Hu [("id", Js.Num 9)] eq_refl).
Defined.

(** X18 on the example, for version 2. *)
Lemma getVersion_returns_the_numbered_row_witness :
  Js.get "version_id" (version 2 UPDATE 1 "V2") = Some (Js.Num 2)
  /\ exists h,
       Sqlite.tables (sqlite after_three) !! "users_history" = Some h
       /\ In (version 2 UPDATE 1 "V2") (Sqlite.t_rows h).
Proof.
  destruct (getVersion_returns_the_numbered_row after_three "users" 2
              (version 2 UPDATE 1 "V2") after_three) as (_ & H1 & H2).
  - vm_compute. reflexivity.
  - split; [exact H1 | exact H2].
Defined.

(** X19 on a history stored out of order. *)
Lemma getVersions_sorts_what_is_stored_witness :
  let c := stranger (live [] 0) shuffled in
  Permutation three_versions
    (List.filter (Sqlite.matches [("id", Js.Num 1)]) (Sqlite.t_rows shuffled))
  /\ Sorted by_version_id three_versions.
Proof.
  intros c.
  destruct (getVersions_sorts_what_is_stored c "users" shuffled
              [("id", Js.Num 1)] three_versions c) as (_ & H1 & H2).
  - apply lookup_insert_eq.
  - vm_compute. reflexivity.
  - split; [exact H1 | exact H2].
Defined.



(** X20 on the example: a second user. *)
Lemma inserted_version_is_retrievable_witness :
  let c' := instance (live [user 1 "V3"; user 2 "Ann"] 2)
              (history (three_versions ++ [version 4 INSERT 2 "Ann"]) 4) in
  getVersion "users" 4 c' = (inr (Some (version 4 INSERT 2 "Ann")), c')
  /\ getVersions "users" [("id", Js.Num 2)] c'
     = (inr [version 4 INSERT 2 "Ann"], c').
Proof.
  intros c'.
  destruct (inserted_version_is_retrievable after_three "users"
              (live [user 1 "V3"] 1) (history three_versions 3)
              (user 2 "Ann") c' after_three_versioned eq_refl eq_refl eq_refl)
    as (H1 & _ & H2).
  - vm_compute. reflexivity.
  - split; [exact H1|].
    exact (H2 [("id", Js.Num 2)] eq_refl eq_refl eq_refl).
Defined.

(** X12 on the example. *)
Lemma mutations_leave_other_relations_witness :
  same_elsewhere after_three
    (snd (insert "users" (user 2 "Ann") after_three)) "users"
  /\ same_elsewhere after_three
       (snd (rollback "users" {| versionId := 1; where_ := [("id", Js.Num 1)] |}
               after_three)) "users".
Proof.
  destruct (mutations_leave_other_relations after_three "users"
              (live [user 1 "V3"] 1) (history three_versions 3)
              after_three_versioned) as (Hi & _ & _ & Hr).
  split; [apply Hi | apply Hr].
Defined.

(** X21 on the example: back to version 3, the current one. *)
Lemma rollback_to_current_still_records_witness :
  exists l' h' v,
    Sqlite.tables
      (sqlite (instance (live [user 1 "V3"] 1)
                 (history (three_versions ++ [version 4 UPDATE 1 "V3"]) 4)))
      !! "users" = Some l'
    /\ Sqlite.t_rows l' = [user 1 "V3"]
    /\ Sqlite.tables
         (sqlite (instance (live [user 1 "V3"] 1)
                    (history (three_versions ++ [version 4 UPDATE 1 "V3"]) 4)))
         !! "users_history" = Some h'
    /\ Sqlite.t_rows h' = (three_versions ++ [v])%list
    /\ Js.get "version_operation" v = Some (Js.Str "UPDATE")
    /\ Js.omit metadata_keys v = user 1 "V3".
Proof.
  apply (rollback_to_current_still_records after_three "users"
           (live [user 1 "V3"] 1) (history three_versions 3)
           (version 3 UPDATE 1 "V3") 3 [("id", Js.Num 1)]).
  - exact after_three_versioned.
  - cbn. tauto.
  - reflexivity.
  - intros r [<-|[]] _. reflexivity.
  - vm_compute. reflexivity.
Defined.

(** X17 on the example. *)
Lemma recordVersion_numbers_and_stamps_witness :
  exists h' v id,
    recordVersion "users" (user 1 "V4") UPDATE after_three
    = (inr tt,
       with_sqlite (Sqlite.put_table "users_history" h' (sqlite after_three))
                   after_three)
    /\ Sqlite.t_columns h' = Sqlite.t_columns (history three_versions 3)
    /\ Sqlite.t_rows h' = (three_versions ++ [v])%list
    /\ Js.keys v = Sqlite.column_names (history three_versions 3)
    /\ Js.get "version_id" v = Some (Js.Num id)
    /\ (forall r m, In r three_versions ->
                    Js.get "version_id" r = Some (Js.Num m) -> m < id)
    /\ Js.get "version_created_at" v = Some (Js.Str clock)
    /\ Js.get "version_operation" v = Some (Js.Str "UPDATE")
    /\ (forall k, In k ["id"; "name"] ->
                  Js.get k v = Some (default Js.Null (Js.get k (user 1 "V4"))))
    /\ fits (Sqlite.t_columns (history three_versions 3)) v = true.
Proof.
  apply (recordVersion_numbers_and_stamps after_three "users"
           (history three_versions 3) ["id"; "name"] (user 1 "V4") UPDATE).
  - apply lookup_insert_eq.
  - exists (derived users). repeat split. cbn. repeat constructor.
  - repeat constructor; cbn; intuition discriminate.
  - intros k Hk. exact Hk.
  - reflexivity.
  - reflexivity.
Defined.

(** X22 on the example: update to V4, back to version 3. *)
Lemma rollback_undoes_update_witness :
  let c1 := instance (live [user 1 "V4"] 1)
              (history (three_versions ++ [version 4 UPDATE 1 "V4"]) 4) in
  let c2 := instance (live [user 1 "V3"] 1)
              (history (three_versions
                        ++ [version 4 UPDATE 1 "V4"; version 5 UPDATE 1 "V3"]) 5) in
  exists l2 h2 v1 v2,
    Sqlite.tables (sqlite c2) !! "users" = Some l2
    /\ Sqlite.t_rows l2 = [user 1 "V3"]
    /\ Sqlite.tables (sqlite c2) !! "users_history" = Some h2
    /\ Sqlite.t_rows h2 = (three_versions ++ [v1; v2])%list.
Proof.
  intros c1 c2.
  apply (rollback_undoes_update after_three "users"
           (live [user 1 "V3"] 1) (history three_versions 3)
           (version 3 UPDATE 1 "V3") 3 [("name", Js.Str "V4")]
           [("id", Js.Num 1)] c1 c2).
  - exact after_three_versioned.
  - cbn. tauto.
  - reflexivity.
  - intros r [<-|[]] _. reflexivity.
  - intros k [<-|[]]. reflexivity.
  - vm_compute. reflexivity.
  - vm_compute. reflexivity.
Defined.

End MoreInstances.

(** ** Sequences of calls *)

Section Traces.



End Traces.


Section TraceInstance.

Import Example.


End TraceInstance.
